(** * The CHIP-8 core of [src/1.py], embedded and checked against its specification

    The Python class [Chip8] is modelled as a record and its methods as
    computations in a small monad that threads the object, the lines written
    to standard output, and the Python exception a statement may raise.
    Python integers are [Z]; Python lists are [list] with Python's indexing
    rules (negative indices count from the end, anything else out of range
    raises [IndexError]). *)

From stdpp Require Import base list strings.
From Stdlib Require Import ZArith HexadecimalZ Lia.
From Stdlib Require Import Ascii.
From Stdlib Require Strings.Byte.

Local Open Scope Z_scope.

(** ** Fragments of the Python runtime the source relies on *)

Module Py.

(** Exception classes the modelled statements can raise. *)
Inductive exception : Type :=
| IndexError          (* list index out of range *)
| FileNotFoundError.  (* open() on a missing path *)

Definition class_name (e : exception) : string :=
  match e with
  | IndexError => "IndexError"
  | FileNotFoundError => "FileNotFoundError"
  end.

(** Position a Python index denotes in a list of length [len], if any. *)
Definition position (len : nat) (k : Z) : option nat :=
  if (0 <=? k) && (k <? Z.of_nat len) then Some (Z.to_nat k)
  else if (- Z.of_nat len <=? k) && (k <? 0) then Some (Z.to_nat (Z.of_nat len + k))
  else None.

(** [l[k]] *)
Definition getitem {A} (l : list A) (k : Z) : exception + A :=
  match position (length l) k with
  | Some n =>
      match l !! n with
      | Some x => inr x
      | None => inl IndexError
      end
  | None => inl IndexError
  end.

(** [l[k] = x] *)
Definition setitem {A} (l : list A) (k : Z) (x : A) : exception + list A :=
  match position (length l) k with
  | Some n => inr (<[n:=x]> l)
  | None => inl IndexError
  end.

(** Bound of a slice, clamped as Python does. *)
Definition clamp (len : nat) (k : Z) : nat :=
  Z.to_nat (if k <? 0 then Z.max 0 (k + Z.of_nat len) else Z.min k (Z.of_nat len)).

(** [l[a:b]] *)
Definition slice {A} (l : list A) (a b : Z) : list A :=
  take (clamp (length l) b - clamp (length l) a)%nat (drop (clamp (length l) a) l).

(** [[x] * n] *)
Definition repeat_list {A} (x : A) (n : Z) : list A := replicate (Z.to_nat n) x.

(** Iterating over a [bytes] object yields ints in 0..255. *)
Definition int_of_byte (b : Byte.byte) : Z := Z.of_N (Byte.to_N b).

Fixpoint hex_digits (u : Hexadecimal.uint) : string :=
  match u with
  | Hexadecimal.Nil => ""
  | Hexadecimal.D0 u => String "0"%char (hex_digits u)
  | Hexadecimal.D1 u => String "1"%char (hex_digits u)
  | Hexadecimal.D2 u => String "2"%char (hex_digits u)
  | Hexadecimal.D3 u => String "3"%char (hex_digits u)
  | Hexadecimal.D4 u => String "4"%char (hex_digits u)
  | Hexadecimal.D5 u => String "5"%char (hex_digits u)
  | Hexadecimal.D6 u => String "6"%char (hex_digits u)
  | Hexadecimal.D7 u => String "7"%char (hex_digits u)
  | Hexadecimal.D8 u => String "8"%char (hex_digits u)
  | Hexadecimal.D9 u => String "9"%char (hex_digits u)
  | Hexadecimal.Da u => String "A"%char (hex_digits u)
  | Hexadecimal.Db u => String "B"%char (hex_digits u)
  | Hexadecimal.Dc u => String "C"%char (hex_digits u)
  | Hexadecimal.Dd u => String "D"%char (hex_digits u)
  | Hexadecimal.De u => String "E"%char (hex_digits u)
  | Hexadecimal.Df u => String "F"%char (hex_digits u)
  end.

(** [f"{n:X}"]: upper-case hexadecimal, no padding, a minus sign for negatives. *)
Definition format_X (n : Z) : string :=
  match Z.to_hex_int n with
  | Hexadecimal.Pos u => hex_digits u
  | Hexadecimal.Neg u => String "-"%char (hex_digits u)
  end.

End Py.

(** ** Module-level constants *)

Definition CHIP8_MEMORY_SIZE : Z := 4096.
Definition CHIP8_REGISTER_COUNT : Z := 16.
Definition CHIP8_STACK_SIZE : Z := 16.
Definition CHIP8_KEYS : Z := 16.
Definition CHIP8_WIDTH : Z := 64.
Definition CHIP8_HEIGHT : Z := 32.

Definition CHIP8_FONTSET : list Z :=
  [ 0xF0; 0x90; 0x90; 0x90; 0xF0;
    0x20; 0x60; 0x20; 0x20; 0x70;
    0xF0; 0x10; 0xF0; 0x80; 0xF0;
    0xF0; 0x10; 0xF0; 0x10; 0xF0;
    0x90; 0x90; 0xF0; 0x10; 0x10;
    0xF0; 0x80; 0xF0; 0x10; 0xF0;
    0xF0; 0x80; 0xF0; 0x90; 0xF0;
    0xF0; 0x10; 0x20; 0x40; 0x40;
    0xF0; 0x90; 0xF0; 0x90; 0xF0;
    0xF0; 0x90; 0xF0; 0x10; 0xF0;
    0xF0; 0x90; 0xF0; 0x90; 0x90;
    0xE0; 0x90; 0xE0; 0x90; 0xE0;
    0xF0; 0x80; 0x80; 0x80; 0xF0;
    0xE0; 0x90; 0x90; 0x90; 0xE0;
    0xF0; 0x80; 0xF0; 0x80; 0xF0;
    0xF0; 0x80; 0xF0; 0x80; 0x80 ].

(** ** The class [Chip8] *)

Module Chip8.

(** Instance attributes, in the order [__init__] assigns them. *)
Record t : Type := Build {
  memory : list Z;
  v : list Z;
  i : Z;
  pc : Z;
  gfx : list Z;
  delay_timer : Z;
  sound_timer : Z;
  stack : list Z;
  sp : Z;
  keys : list Z;
  draw_flag : bool
}.

Definition set_memory (s : t) (x : list Z) : t :=
  Build x (v s) (i s) (pc s) (gfx s) (delay_timer s) (sound_timer s)
        (stack s) (sp s) (keys s) (draw_flag s).
Definition set_pc (s : t) (x : Z) : t :=
  Build (memory s) (v s) (i s) x (gfx s) (delay_timer s) (sound_timer s)
        (stack s) (sp s) (keys s) (draw_flag s).
Definition set_gfx (s : t) (x : list Z) : t :=
  Build (memory s) (v s) (i s) (pc s) x (delay_timer s) (sound_timer s)
        (stack s) (sp s) (keys s) (draw_flag s).
Definition set_delay_timer (s : t) (x : Z) : t :=
  Build (memory s) (v s) (i s) (pc s) (gfx s) x (sound_timer s)
        (stack s) (sp s) (keys s) (draw_flag s).
Definition set_sound_timer (s : t) (x : Z) : t :=
  Build (memory s) (v s) (i s) (pc s) (gfx s) (delay_timer s) x
        (stack s) (sp s) (keys s) (draw_flag s).
Definition set_sp (s : t) (x : Z) : t :=
  Build (memory s) (v s) (i s) (pc s) (gfx s) (delay_timer s) (sound_timer s)
        (stack s) x (keys s) (draw_flag s).
Definition set_stack (s : t) (x : list Z) : t :=
  Build (memory s) (v s) (i s) (pc s) (gfx s) (delay_timer s) (sound_timer s)
        x (sp s) (keys s) (draw_flag s).
Definition set_draw_flag (s : t) (x : bool) : t :=
  Build (memory s) (v s) (i s) (pc s) (gfx s) (delay_timer s) (sound_timer s)
        (stack s) (sp s) (keys s) x.

(** *** Method bodies as computations

    A call either returns (Python's [return], here always of [None] for the
    methods below) or raises; both leave the object in some state and may
    have printed lines. *)
Inductive outcome (A : Type) : Type :=
| Returned (a : A) (s : t) (out : list string)
| Raised (e : Py.exception) (s : t) (out : list string).
Arguments Returned {A} a s out.
Arguments Raised {A} e s out.

Definition M (A : Type) : Type := t → outcome A.

Definition printed_before {A} (o : list string) (r : outcome A) : outcome A :=
  match r with
  | Returned a s o' => Returned a s (o ++ o')
  | Raised e s o' => Raised e s (o ++ o')
  end.

#[global] Instance M_ret : MRet M := λ A a s, Returned a s [].
#[global] Instance M_bind : MBind M := λ A B f m s,
  match m s with
  | Returned a s' o => printed_before o (f a s')
  | Raised e s' o => Raised e s' o
  end.

Definition get : M t := λ s, Returned s s [].
Definition modify (f : t → t) : M unit := λ s, Returned () (f s) [].
Definition print (line : string) : M unit := λ s, Returned () s [line].
Definition py {A} (r : Py.exception + A) : M A := λ s,
  match r with
  | inr a => Returned a s []
  | inl e => Raised e s []
  end.

(** [__init__] *)
Definition load_fontset (mem : list Z) : list Z :=
  foldl (λ m k, <[k := default 0 (CHIP8_FONTSET !! k)]> m) mem
        (seq 0 (length CHIP8_FONTSET)).

Definition init : t :=
  {| memory := load_fontset (Py.repeat_list 0 CHIP8_MEMORY_SIZE);
     v := Py.repeat_list 0 CHIP8_REGISTER_COUNT;
     i := 0;
     pc := 0x200;
     gfx := Py.repeat_list 0 (CHIP8_WIDTH * CHIP8_HEIGHT);
     delay_timer := 0;
     sound_timer := 0;
     stack := Py.repeat_list 0 CHIP8_STACK_SIZE;
     sp := 0;
     keys := Py.repeat_list 0 CHIP8_KEYS;
     draw_flag := false |}.

(** [load_rom]: the file system is the map [fs] from paths to contents. *)
Definition read_file (fs : string → option (list Byte.byte)) (path : string)
  : M (list Byte.byte) :=
  py (match fs path with
      | Some content => inr content
      | None => inl Py.FileNotFoundError
      end).

(** [for idx, byte in enumerate(rom): self.memory[0x200 + idx] = byte] *)
Fixpoint store_rom (rom : list Byte.byte) (idx : Z) : M unit :=
  match rom with
  | [] => mret ()
  | byte :: rest =>
      s ← get;
      mem ← py (Py.setitem (memory s) (0x200 + idx) (Py.int_of_byte byte));
      modify (λ s, set_memory s mem);;
      store_rom rest (idx + 1)
  end.

Definition load_rom (fs : string → option (list Byte.byte)) (rom_path : string)
  : M unit :=
  rom ← read_file fs rom_path;
  store_rom rom 0.

(** [emulate_cycle], in the three parts its comments name. *)

(** [opcode = self.memory[self.pc] << 8 | self.memory[self.pc + 1]] *)
Definition fetch : M Z :=
  s ← get;
  hi ← py (Py.getitem (memory s) (pc s));
  lo ← py (Py.getitem (memory s) (pc s + 1));
  mret (Z.lor (Z.shiftl hi 8) lo).

(** The branch the [if]/[elif]/[else] chain selects. *)
Inductive branch : Type := CLS | RET | Unknown.

Definition decode (opcode : Z) : branch :=
  if opcode =? 0x00E0 then CLS
  else if opcode =? 0x00EE then RET
  else Unknown.

Definition execute (opcode : Z) : M unit :=
  match decode opcode with
  | CLS =>
      modify (λ s, set_gfx s (Py.repeat_list 0 (CHIP8_WIDTH * CHIP8_HEIGHT)));;
      modify (λ s, set_draw_flag s true)
  | RET =>
      modify (λ s, set_sp s (sp s - 1));;
      s ← get;
      addr ← py (Py.getitem (stack s) (sp s));
      modify (λ s, set_pc s addr)
  | Unknown =>
      print ("Unknown opcode: " +:+ Py.format_X opcode)
  end.

Definition update_timers : M unit :=
  s ← get;
  (if 0 <? delay_timer s
   then modify (λ s, set_delay_timer s (delay_timer s - 1))
   else mret ());;
  s ← get;
  (if 0 <? sound_timer s
   then
     (if sound_timer s =? 1 then print "BEEP!" else mret ());;
     modify (λ s, set_sound_timer s (sound_timer s - 1))
   else mret ()).

Definition emulate_cycle : M unit :=
  opcode ← fetch;
  modify (λ s, set_pc s (pc s + 2));;
  execute opcode;;
  update_timers.

(** [set_keys] *)
Definition with_keys (s : t) (x : list Z) : t :=
  Build (memory s) (v s) (i s) (pc s) (gfx s) (delay_timer s) (sound_timer s)
        (stack s) (sp s) x (draw_flag s).

Definition set_keys (keys : list Z) : M unit :=
  modify (λ s, with_keys s keys).

(** The driver's use of the core: before each cycle it hands over the
    keypad snapshot of that frame. *)
Fixpoint drive (snapshots : list (list Z)) : M unit :=
  match snapshots with
  | [] => mret ()
  | ks :: rest => set_keys ks;; emulate_cycle;; drive rest
  end.

End Chip8.

Arguments Py.repeat_list : simpl never.

(** ** Vocabulary of the specification *)

(** The caller of a method receives an error of class [cls]: the call raises
    an exception of that class.  (A call that returns hands back [None],
    which carries no error.) *)
Definition fails_with {A} (r : Chip8.outcome A) (cls : string) : Prop :=
  match r with
  | Chip8.Raised e _ _ => Py.class_name e = cls
  | Chip8.Returned _ _ _ => False
  end.

(** The opcode patterns of the specification's dispatch table (section 4.2),
    row by row. *)
Definition in_table (opcode : Z) : bool :=
  let family := Z.shiftr opcode 12 in
  let kk := Z.land opcode 0xFF in
  let n := Z.land opcode 0xF in
  (0 <=? opcode) && (opcode <=? 0xFFFF) &&
  (if family =? 0x0 then (opcode =? 0x00E0) || (opcode =? 0x00EE)
   else if (family =? 0x1) || (family =? 0x2) then true
   else if (family =? 0x3) || (family =? 0x4) then true
   else if (family =? 0x5) || (family =? 0x9) then n =? 0
   else if (family =? 0x6) || (family =? 0x7) then true
   else if family =? 0x8 then (n <=? 7) || (n =? 0xE)
   else if (family =? 0xA) || (family =? 0xB) then true
   else if (family =? 0xC) || (family =? 0xD) then true
   else if family =? 0xE then (kk =? 0x9E) || (kk =? 0xA1)
   else if family =? 0xF then
     existsb (Z.eqb kk) [0x07; 0x0A; 0x15; 0x18; 0x1E; 0x29; 0x33; 0x55; 0x65]
   else false).

(** The shape [Fx0A] of the wait-for-key instruction. *)
Definition is_Fx0A (opcode : Z) : Prop := Z.land opcode 0xF0FF = 0xF00A.

(** ** States used as test inputs *)

(** [s] with the two bytes [hi], [lo] stored at address [a]. *)
Definition poke2 (a : nat) (hi lo : Z) (s : Chip8.t) : Chip8.t :=
  Chip8.set_memory s (<[S a := lo]> (<[a := hi]> (Chip8.memory s))).

Definition no_key_pressed : list Z := Py.repeat_list 0 CHIP8_KEYS.

(** A fresh machine whose program starts with [00E0] (CLS). *)
Definition cls_state : Chip8.t := poke2 0x200 0x00 0xE0 Chip8.init.

(** A fresh machine whose program starts with [1234] (JP 0x234). *)
Definition jp_state : Chip8.t := poke2 0x200 0x12 0x34 Chip8.init.

(** A fresh machine whose program starts with [5FFF], delay timer at 5. *)
Definition unknown_state : Chip8.t :=
  Chip8.set_delay_timer (poke2 0x200 0x5F 0xFF Chip8.init) 5.

(** A machine whose program starts with [00EE] (RET), SP = 0 and 0x300 in the
    last stack slot. *)
Definition ret_empty_state : Chip8.t :=
  let s := poke2 0x200 0x00 0xEE Chip8.init in
  Chip8.set_stack s (<[15%nat := 0x300]> (Chip8.stack s)).

(** The same program with one return address, 0x300, on the stack. *)
Definition ret_one_state : Chip8.t :=
  let s := poke2 0x200 0x00 0xEE Chip8.init in
  Chip8.set_sp (Chip8.set_stack s (<[0%nat := 0x300]> (Chip8.stack s))) 1.

(** A fresh machine with PC on the last byte of memory. *)
Definition edge_state : Chip8.t := Chip8.set_pc Chip8.init 4095.

(** The same with the delay timer at 5. *)
Definition edge_timer_state : Chip8.t := Chip8.set_delay_timer edge_state 5.

(** A fresh machine whose program starts with [F00A] (LD V0, K). *)
Definition wait_state : Chip8.t := poke2 0x200 0xF0 0x0A Chip8.init.

(** A fresh machine with the delay timer at 5 and the sound timer at 1. *)
Definition timer_state : Chip8.t :=
  Chip8.set_sound_timer (Chip8.set_delay_timer Chip8.init 5) 1.

(** A file system holding one file. *)
Definition single_file (name : string) (content : list Byte.byte)
  : string → option (list Byte.byte) :=
  λ path, if String.eqb path name then Some content else None.

(** One byte more than fits after 0x200, and a two-byte program. *)
Definition oversized_rom : list Byte.byte := replicate 3585 Byte.x01.
Definition cls_rom : list Byte.byte := [Byte.x00; Byte.xe0].

(** State and output a call ends with. *)
Definition state_of {A} (r : Chip8.outcome A) : Chip8.t :=
  match r with
  | Chip8.Returned _ s _ => s
  | Chip8.Raised _ s _ => s
  end.
Definition output_of {A} (r : Chip8.outcome A) : list string :=
  match r with
  | Chip8.Returned _ _ o => o
  | Chip8.Raised _ _ o => o
  end.

(** ** Derived descriptions of a cycle *)

(** What [update_timers] leaves behind and what it prints. *)
Definition countdown (t : Z) : Z := if 0 <? t then t - 1 else t.

Definition tick (s : Chip8.t) : Chip8.t :=
  Chip8.set_sound_timer
    (Chip8.set_delay_timer s (countdown (Chip8.delay_timer s)))
    (countdown (Chip8.sound_timer s)).

Definition beep (s : Chip8.t) : list string :=
  if Chip8.sound_timer s =? 1 then ["BEEP!"%string] else [].

(** The state in which the selected branch runs: [self.pc += 2] is done. *)
Definition advanced (s : Chip8.t) : Chip8.t := Chip8.set_pc s (Chip8.pc s + 2).

(** ** The class [GUI]

    Of pygame the model keeps what the two methods use: the events a frame
    delivers, and the calls made on the window, in order. *)

Module GUI.

(** [pygame.K_1], the key code of the character 1. *)
Definition K_1 : Z := 49.

(** An event as [handle_events] looks at it: its type and, for key events,
    its key. *)
Inductive event : Type :=
| QUIT
| KEYDOWN (key : Z)
| KEYUP (key : Z)
| OTHER.

(** Calls on the window: [screen.fill(color)],
    [pygame.draw.rect(screen, color, rect)], [pygame.display.flip()]. *)
Inductive command : Type :=
| Fill (color : Z * Z * Z)
| Rect (color : Z * Z * Z) (rect : Z * Z * Z * Z)
| Flip.

(** How a method ends: it returns, the process exits ([quit()]), or an
    exception escapes; each with the machine as it then is. *)
Inductive result : Type :=
| Done (s : Chip8.t)
| Exited (s : Chip8.t)
| Failed (e : Py.exception) (s : Chip8.t).

(** The pairs (x, y) in the order of
    [for y in range(CHIP8_HEIGHT): for x in range(CHIP8_WIDTH)]. *)
Definition raster : list (Z * Z) :=
  y ← seqZ 0 CHIP8_HEIGHT; x ← seqZ 0 CHIP8_WIDTH; [(x, y)].

(** The body of the two loops of [draw] over the cells still to visit: the
    rectangles painted, and the exception that stopped the loops if any. *)
Fixpoint draw_cells (gfx : list Z) (cells : list (Z * Z))
  : list command * option Py.exception :=
  match cells with
  | [] => ([], None)
  | (x, y) :: rest =>
      match Py.getitem gfx (x + y * CHIP8_WIDTH) with
      | inl e => ([], Some e)
      | inr pixel =>
          let painted :=
            if pixel =? 1
            then [Rect (255, 255, 255) (x * 10, y * 10, 10, 10)]
            else [] in
          let '(later, stopped) := draw_cells gfx rest in
          (painted ++ later, stopped)
      end
  end.

(** [draw] *)
Definition draw (s : Chip8.t) : list command * result :=
  if Chip8.draw_flag s then
    match draw_cells (Chip8.gfx s) raster with
    | (painted, None) =>
        (Fill (0, 0, 0) :: painted ++ [Flip], Done (Chip8.set_draw_flag s false))
    | (painted, Some e) => (Fill (0, 0, 0) :: painted, Failed e s)
    end
  else ([], Done s).

(** [handle_events], on the events [pygame.event.get()] returned. *)
Fixpoint handle_events (events : list event) (s : Chip8.t) : result :=
  match events with
  | [] => Done s
  | QUIT :: _ => Exited s
  | KEYDOWN key :: rest =>
      if key =? K_1 then
        match Py.setitem (Chip8.keys s) 0x1 1 with
        | inr ks => handle_events rest (Chip8.with_keys s ks)
        | inl e => Failed e s
        end
      else handle_events rest s
  | KEYUP key :: rest =>
      if key =? K_1 then
        match Py.setitem (Chip8.keys s) 0x1 0 with
        | inr ks => handle_events rest (Chip8.with_keys s ks)
        | inl e => Failed e s
        end
      else handle_events rest s
  | OTHER :: rest => handle_events rest s
  end.

Definition machine (r : result) : Chip8.t :=
  match r with
  | Done s => s
  | Exited s => s
  | Failed _ s => s
  end.

(** One turn of the loop of [run]: [emulate_cycle], [draw], [handle_events]
    ([clock.tick] only waits).  It yields the lines printed, the calls made on
    the window, and how the turn ended. *)
Definition frame (events : list event) (s : Chip8.t)
  : list string * list command * result :=
  match Chip8.emulate_cycle s with
  | Chip8.Raised e s1 out => (out, [], Failed e s1)
  | Chip8.Returned _ s1 out =>
      match draw s1 with
      | (window, Done s2) => (out, window, handle_events events s2)
      | (window, r) => (out, window, r)
      end
  end.

End GUI.

(** ** [inspect_zip_for_modules]

    The archive is taken as the list [zfile.namelist()] returns. *)

(** [s.endswith(suffix)] *)
Definition endswith (s suffix : string) : bool :=
  let n := String.length s in
  let m := String.length suffix in
  (m <=? n)%nat && String.eqb (String.substring (n - m) m s) suffix.

Definition inspect_zip_for_modules (namelist : list string) : list string :=
  foldl (λ result name, if endswith name ".ch8" then result ++ [name] else result)
        [] namelist.

(** ** Shapes and counts used in the statements *)

(** The list lengths [__init__] gives the attributes. *)
Definition shaped (s : Chip8.t) : Prop :=
  length (Chip8.memory s) = 4096%nat ∧
  length (Chip8.v s) = 16%nat ∧
  length (Chip8.gfx s) = 2048%nat ∧
  length (Chip8.stack s) = 16%nat ∧
  length (Chip8.keys s) = 16%nat.

(** What one batch of events may have done to a machine. *)
Definition key_1_only (s s' : Chip8.t) : Prop :=
  Chip8.with_keys s' (Chip8.keys s) = s ∧
  length (Chip8.keys s') = length (Chip8.keys s) ∧
  (∀ k, k ≠ 1%nat → Chip8.keys s' !! k = Chip8.keys s !! k) ∧
  (Chip8.keys s' !! 1%nat = Chip8.keys s !! 1%nat ∨
   Chip8.keys s' !! 1%nat = Some 0 ∨
   Chip8.keys s' !! 1%nat = Some 1).

(** An outcome with the keypad of its state replaced. *)
Definition outcome_with_keys {A} (r : Chip8.outcome A) (ks : list Z)
  : Chip8.outcome A :=
  match r with
  | Chip8.Returned a s o => Chip8.Returned a (Chip8.with_keys s ks) o
  | Chip8.Raised e s o => Chip8.Raised e (Chip8.with_keys s ks) o
  end.

(** Every memory cell holds a byte. *)
Definition byte_cells (mem : list Z) : Prop := Forall (λ b, 0 ≤ b < 256) mem.

(** Every pixel is off. *)
Definition dark (s : Chip8.t) : Prop :=
  Chip8.gfx s = Py.repeat_list 0 (CHIP8_WIDTH * CHIP8_HEIGHT).

(** How many of the printed lines are the beep. *)
Definition beeps (out : list string) : nat :=
  length (filter (λ line, line = "BEEP!"%string) out).

(** A three-byte program, and a longer one starting with CLS. *)
Definition short_rom : list Byte.byte := [Byte.x12; Byte.x34; Byte.x56].
Definition long_rom : list Byte.byte :=
  [Byte.x00; Byte.xe0; Byte.x00; Byte.xee; Byte.xab; Byte.xcd].

(** A machine whose program starts with [00EE] with SP = -16, one below the
    lowest SP at which the stack read still wraps. *)
Definition ret_deep_state : Chip8.t :=
  Chip8.set_sp (poke2 0x200 0x00 0xEE Chip8.init) (-16).

(** The same with SP = -3. *)
Definition ret_wrapped_state : Chip8.t :=
  let s := poke2 0x200 0x00 0xEE Chip8.init in
  Chip8.set_sp (Chip8.set_stack s (<[12%nat := 0x2A0]> (Chip8.stack s))) (-3).

(** A machine with four lit pixels and the draw flag raised. *)
Definition lit_state : Chip8.t :=
  Chip8.set_draw_flag
    (Chip8.set_gfx Chip8.init
       (<[2047%nat := 1]> (<[65%nat := 1]> (<[64%nat := 1]> (<[3%nat := 1]>
          (Chip8.gfx Chip8.init))))))
    true.

(** A file system holding the two programs above. *)
Definition two_files : string → option (list Byte.byte) :=
  λ path, if String.eqb path "long.ch8" then Some long_rom
          else if String.eqb path "short.ch8" then Some short_rom
          else None.

(** A batch of events: "1" pressed, another key pressed, "1" released. *)
Definition key_batch : list GUI.event :=
  [GUI.KEYDOWN GUI.K_1; GUI.OTHER; GUI.KEYDOWN 50; GUI.KEYUP GUI.K_1].

(** ** Python indexing *)

Section Indexing.
Context {A : Type}.
Implicit Types (l : list A) (k : Z) (x : A).

Lemma position_nonneg (len : nat) k :
  0 ≤ k →
  Py.position len k = if k <? Z.of_nat len then Some (Z.to_nat k) else None.
Proof.
  intros Hk. unfold Py.position.
  destruct (Z.leb_spec 0 k); [|lia].
  destruct (Z.ltb_spec k (Z.of_nat len)); simpl; [done|].
  destruct (Z.ltb_spec k 0); [lia|]. by rewrite andb_false_r.
Qed.

Lemma position_wraps (len : nat) k :
  - Z.of_nat len ≤ k < 0 →
  Py.position len k = Some (Z.to_nat (Z.of_nat len + k)).
Proof.
  intros Hk. unfold Py.position.
  destruct (Z.leb_spec 0 k); [lia|]. simpl.
  destruct (Z.leb_spec (- Z.of_nat len) k); [|lia].
  destruct (Z.ltb_spec k 0); [done|lia].
Qed.

Lemma position_below (len : nat) k :
  k < - Z.of_nat len → Py.position len k = None.
Proof.
  intros Hk. unfold Py.position.
  destruct (Z.leb_spec 0 k); [lia|]. simpl.
  destruct (Z.leb_spec (- Z.of_nat len) k); [lia|done].
Qed.

Lemma getitem_inside l k :
  0 ≤ k < Z.of_nat (length l) →
  ∃ x, l !! Z.to_nat k = Some x ∧ Py.getitem l k = inr x.
Proof.
  intros Hk. unfold Py.getitem. rewrite position_nonneg by lia.
  destruct (Z.ltb_spec k (Z.of_nat (length l))); [|lia].
  destruct (lookup_lt_is_Some_2 l (Z.to_nat k)) as [x Hx]; [lia|].
  exists x. by rewrite Hx.
Qed.

Lemma getitem_wraps l k :
  - Z.of_nat (length l) ≤ k < 0 →
  ∃ x, l !! Z.to_nat (Z.of_nat (length l) + k) = Some x ∧ Py.getitem l k = inr x.
Proof.
  intros Hk. unfold Py.getitem. rewrite position_wraps by lia.
  destruct (lookup_lt_is_Some_2 l (Z.to_nat (Z.of_nat (length l) + k)))
    as [x Hx]; [lia|].
  exists x. by rewrite Hx.
Qed.

Lemma getitem_beyond l k :
  Z.of_nat (length l) ≤ k → Py.getitem l k = inl Py.IndexError.
Proof.
  intros Hk. unfold Py.getitem. rewrite position_nonneg by lia.
  by destruct (Z.ltb_spec k (Z.of_nat (length l))); [lia|].
Qed.

Lemma getitem_below l k :
  k < - Z.of_nat (length l) → Py.getitem l k = inl Py.IndexError.
Proof. intros Hk. unfold Py.getitem. by rewrite position_below. Qed.

Lemma getitem_raises_IndexError l k e : Py.getitem l k = inl e → e = Py.IndexError.
Proof.
  unfold Py.getitem. destruct (Py.position _ _); [|congruence].
  destruct (l !! _); congruence.
Qed.

Lemma setitem_inside l k x :
  0 ≤ k < Z.of_nat (length l) → Py.setitem l k x = inr (<[Z.to_nat k := x]> l).
Proof.
  intros Hk. unfold Py.setitem. rewrite position_nonneg by lia.
  by destruct (Z.ltb_spec k (Z.of_nat (length l))); [|lia].
Qed.

Lemma setitem_beyond l k x :
  Z.of_nat (length l) ≤ k → Py.setitem l k x = inl Py.IndexError.
Proof.
  intros Hk. unfold Py.setitem. rewrite position_nonneg by lia.
  by destruct (Z.ltb_spec k (Z.of_nat (length l))); [lia|].
Qed.

Lemma slice_inside l (a n : nat) :
  (a + n ≤ length l)%nat →
  Py.slice l (Z.of_nat a) (Z.of_nat a + Z.of_nat n) = take n (drop a l).
Proof.
  intros Hn. unfold Py.slice, Py.clamp.
  destruct (Z.ltb_spec (Z.of_nat a) 0); [lia|].
  destruct (Z.ltb_spec (Z.of_nat a + Z.of_nat n) 0); [lia|].
  rewrite !Z.min_l by lia.
  replace (Z.to_nat (Z.of_nat a)) with a by lia.
  f_equal. lia.
Qed.
End Indexing.

(** ** The monad *)

Section Monad.
Import Chip8.

Lemma bind_Returned {A B} (m : M A) (f : A → M B) s a s' o :
  m s = Returned a s' o → (m ≫= f) s = printed_before o (f a s').
Proof. intros H. unfold mbind, M_bind. by rewrite H. Qed.

Lemma bind_Raised {A B} (m : M A) (f : A → M B) s e s' o :
  m s = Raised e s' o → (m ≫= f) s = Raised e s' o.
Proof. intros H. unfold mbind, M_bind. by rewrite H. Qed.

Lemma printed_before_nil {A} (r : outcome A) : printed_before [] r = r.
Proof. by destruct r. Qed.
End Monad.

Ltac unfold_M :=
  unfold mbind, Chip8.M_bind, mret, Chip8.M_ret, Chip8.get, Chip8.modify,
    Chip8.print, Chip8.py, Chip8.printed_before.

(** ** One cycle, part by part *)

Section Cycle.
Import Chip8.

Lemma fetch_eq s :
  fetch s =
  match Py.getitem (memory s) (pc s) with
  | inl e => Raised e s []
  | inr hi =>
      match Py.getitem (memory s) (pc s + 1) with
      | inl e => Raised e s []
      | inr lo => Returned (Z.lor (Z.shiftl hi 8) lo) s []
      end
  end.
Proof.
  unfold fetch. unfold_M. simpl.
  destruct (Py.getitem (memory s) (pc s)); simpl; [done|].
  by destruct (Py.getitem (memory s) (pc s + 1)).
Qed.

Lemma fetch_Returned s opcode s' o :
  fetch s = Returned opcode s' o → s' = s ∧ o = [].
Proof.
  rewrite fetch_eq.
  destruct (Py.getitem (memory s) (pc s)); [done|].
  destruct (Py.getitem (memory s) (pc s + 1)); [done|].
  by intros [= _ <- <-].
Qed.

Lemma update_timers_eq s : update_timers s = Returned () (tick s) (beep s).
Proof.
  destruct s as [m r ix p g dt st stk spx ks df].
  unfold update_timers, tick, beep, countdown. unfold_M. simpl.
  destruct (0 <? dt); simpl; destruct (Z.ltb_spec 0 st); simpl;
    destruct (Z.eqb_spec st 1); simpl; try done; lia.
Qed.

Lemma emulate_cycle_eq s opcode :
  fetch s = Returned opcode s [] →
  emulate_cycle s =
  match execute opcode (advanced s) with
  | Returned _ s' o => Returned () (tick s') (o ++ beep s')
  | Raised e s' o => Raised e s' o
  end.
Proof.
  intros Hf. unfold emulate_cycle.
  rewrite (bind_Returned _ _ _ _ _ _ Hf), printed_before_nil.
  unfold mbind at 1, M_bind at 1, modify at 1. rewrite printed_before_nil.
  fold (advanced s).
  unfold mbind, M_bind.
  destruct (execute opcode (advanced s)) as [[] s' o|e s' o]; [|done].
  by rewrite update_timers_eq.
Qed.

Lemma execute_CLS s opcode :
  decode opcode = CLS →
  execute opcode s =
  Returned () (set_draw_flag
                 (set_gfx s (Py.repeat_list 0 (CHIP8_WIDTH * CHIP8_HEIGHT))) true) [].
Proof. intros H. unfold execute. by rewrite H. Qed.

Lemma execute_RET s opcode :
  decode opcode = RET →
  execute opcode s =
  match Py.getitem (stack s) (sp s - 1) with
  | inr addr => Returned () (set_pc (set_sp s (sp s - 1)) addr) []
  | inl e => Raised e (set_sp s (sp s - 1)) []
  end.
Proof.
  intros H. unfold execute. rewrite H. unfold_M. simpl.
  by destruct (Py.getitem (stack s) (sp s - 1)).
Qed.

Lemma execute_Unknown s opcode :
  decode opcode = Unknown →
  execute opcode s =
  Returned () s [("Unknown opcode: " +:+ Py.format_X opcode)%string].
Proof. intros H. unfold execute. by rewrite H. Qed.

Lemma decode_CLS opcode : decode opcode = CLS ↔ opcode = 0x00E0.
Proof.
  unfold decode. destruct (Z.eqb_spec opcode 0x00E0); [done|].
  destruct (Z.eqb_spec opcode 0x00EE); split; congruence.
Qed.

Lemma decode_RET opcode : decode opcode = RET ↔ opcode = 0x00EE.
Proof.
  unfold decode. destruct (Z.eqb_spec opcode 0x00E0); [split; [done|lia]|].
  destruct (Z.eqb_spec opcode 0x00EE); split; congruence.
Qed.

Lemma decode_Unknown opcode :
  decode opcode = Unknown ↔ opcode ≠ 0x00E0 ∧ opcode ≠ 0x00EE.
Proof.
  unfold decode. destruct (Z.eqb_spec opcode 0x00E0); [split; [done|tauto]|].
  destruct (Z.eqb_spec opcode 0x00EE); split; try done; tauto.
Qed.

(** The cycle on an opcode outside the two implemented ones. *)
Lemma emulate_cycle_Unknown s opcode :
  fetch s = Returned opcode s [] →
  decode opcode = Unknown →
  emulate_cycle s =
  Returned () (tick (advanced s))
           (("Unknown opcode: " +:+ Py.format_X opcode)%string :: beep s).
Proof.
  intros Hf Hd. rewrite (emulate_cycle_eq _ _ Hf), (execute_Unknown _ _ Hd).
  done.
Qed.

Lemma emulate_cycle_CLS s :
  fetch s = Returned 0x00E0 s [] →
  emulate_cycle s =
  Returned () (tick (set_draw_flag
                       (set_gfx (advanced s)
                                (Py.repeat_list 0 (CHIP8_WIDTH * CHIP8_HEIGHT)))
                       true))
           (beep s).
Proof.
  intros Hf. rewrite (emulate_cycle_eq _ _ Hf).
  by rewrite execute_CLS by by apply decode_CLS.
Qed.

Lemma emulate_cycle_RET s :
  fetch s = Returned 0x00EE s [] →
  emulate_cycle s =
  match Py.getitem (stack s) (sp s - 1) with
  | inr addr => Returned () (tick (set_pc (set_sp (advanced s) (sp s - 1)) addr)) (beep s)
  | inl e => Raised e (set_sp (advanced s) (sp s - 1)) []
  end.
Proof.
  intros Hf. rewrite (emulate_cycle_eq _ _ Hf).
  rewrite execute_RET by by apply decode_RET. simpl.
  by destruct (Py.getitem (stack s) (sp s - 1)).
Qed.
End Cycle.

(** ** Fetch (C4) *)

(** C4, as the source has it.  For every state whose memory has its 4096
    cells and whose PC is not negative, the fetch of a cycle raises Python's
    built-in [IndexError] exactly when PC+1 >= 4096, and the cycle then
    raises it with the object untouched; when PC+1 < 4096 the fetch raises
    nothing and yields the big-endian opcode
    [memory[PC] << 8 | memory[PC+1]]. *)
Theorem C4_fetch_bounds (s : Chip8.t) :
  Z.of_nat (length (Chip8.memory s)) = CHIP8_MEMORY_SIZE →
  0 ≤ Chip8.pc s →
  (fails_with (Chip8.fetch s) "IndexError" ↔ 4096 ≤ Chip8.pc s + 1) ∧
  (4096 ≤ Chip8.pc s + 1 →
   Chip8.emulate_cycle s = Chip8.Raised Py.IndexError s []) ∧
  (Chip8.pc s + 1 < 4096 →
   ∃ hi lo,
     Chip8.memory s !! Z.to_nat (Chip8.pc s) = Some hi ∧
     Chip8.memory s !! Z.to_nat (Chip8.pc s + 1) = Some lo ∧
     Chip8.fetch s = Chip8.Returned (Z.lor (Z.shiftl hi 8) lo) s []).
Proof.
  unfold CHIP8_MEMORY_SIZE. intros Hlen Hpc.
  assert (Hin : Chip8.pc s + 1 < 4096 →
                ∃ hi lo,
                  Chip8.memory s !! Z.to_nat (Chip8.pc s) = Some hi ∧
                  Chip8.memory s !! Z.to_nat (Chip8.pc s + 1) = Some lo ∧
                  Chip8.fetch s = Chip8.Returned (Z.lor (Z.shiftl hi 8) lo) s []).
  { intros Hlt.
    destruct (getitem_inside (Chip8.memory s) (Chip8.pc s)) as (hi & Hhi & Ghi); [lia|].
    destruct (getitem_inside (Chip8.memory s) (Chip8.pc s + 1)) as (lo & Hlo & Glo); [lia|].
    exists hi, lo. by rewrite fetch_eq, Ghi, Glo. }
  assert (Hout : 4096 ≤ Chip8.pc s + 1 →
                 Chip8.fetch s = Chip8.Raised Py.IndexError s []).
  { intros Hge. rewrite fetch_eq.
    destruct (Py.getitem (Chip8.memory s) (Chip8.pc s)) as [e|hi] eqn:Ghi.
    - by rewrite (getitem_raises_IndexError _ _ _ Ghi).
    - by rewrite getitem_beyond by lia. }
  split; [split|split].
  - intros Hfail. destruct (Z.lt_ge_cases (Chip8.pc s + 1) 4096) as [Hlt|]; [|done].
    destruct (Hin Hlt) as (hi & lo & _ & _ & Hf). by rewrite Hf in Hfail.
  - intros Hge. by rewrite (Hout Hge).
  - intros Hge. unfold Chip8.emulate_cycle. by apply bind_Raised, Hout.
  - done.
Qed.

(** ** Clearing the screen (C8) *)

(** C8.  For every state in which the fetched opcode is 0x00E0, the cycle
    returns, and afterwards the framebuffer is 64*32 zeros, so the pixel at
    every column x and row y reads 0, and the draw flag is true. *)
Theorem C8_cls_clears_framebuffer (s : Chip8.t) :
  Chip8.fetch s = Chip8.Returned 0x00E0 s [] →
  ∃ s' out,
    Chip8.emulate_cycle s = Chip8.Returned () s' out ∧
    Chip8.gfx s' = replicate 2048 0 ∧
    (∀ x y, 0 ≤ x < CHIP8_WIDTH → 0 ≤ y < CHIP8_HEIGHT →
            Py.getitem (Chip8.gfx s') (x + y * CHIP8_WIDTH) = inr 0) ∧
    Chip8.draw_flag s' = true.
Proof.
  intros Hf. eexists _, _. split; [by apply emulate_cycle_CLS|].
  simpl. split; [done|]. split; [|done].
  unfold CHIP8_WIDTH, CHIP8_HEIGHT. intros x y Hx Hy.
  unfold Py.repeat_list.
  destruct (getitem_inside (replicate (Z.to_nat (64 * 32)) 0) (x + y * 64))
    as (px & Hpx & Gpx).
  { rewrite length_replicate. lia. }
  apply lookup_replicate in Hpx as [-> _]. done.
Qed.

(** ** Inversion of a returning cycle *)

Section Inversion.
Import Chip8.

Lemma bind_Returned_inv {A B} (m : M A) (f : A → M B) s b s' o :
  (m ≫= f) s = Returned b s' o →
  ∃ a s1 o1 o2, m s = Returned a s1 o1 ∧ f a s1 = Returned b s' o2 ∧ o = o1 ++ o2.
Proof.
  unfold mbind, M_bind. destruct (m s) as [a s1 o1|e s1 o1]; [|done].
  destruct (f a s1) as [b' s2 o2|e s2 o2] eqn:Hf; [|done].
  simpl. intros [= -> -> <-]. by exists a, s1, o1, o2.
Qed.

Lemma execute_keeps_timers opcode s s1 o :
  execute opcode s = Returned () s1 o →
  delay_timer s1 = delay_timer s ∧ sound_timer s1 = sound_timer s.
Proof.
  destruct (decode opcode) eqn:Hd.
  - rewrite (execute_CLS _ _ Hd). by intros [= <- _].
  - rewrite (execute_RET _ _ Hd).
    destruct (Py.getitem (stack s) (sp s - 1)); [done|]. by intros [= <- _].
  - rewrite (execute_Unknown _ _ Hd). by intros [= <- _].
Qed.

Lemma emulate_cycle_Returned_inv s s' out :
  emulate_cycle s = Returned () s' out →
  ∃ opcode s1 o,
    fetch s = Returned opcode s [] ∧
    execute opcode (advanced s) = Returned () s1 o ∧
    s' = tick s1 ∧ out = o ++ beep s1.
Proof.
  intros Hc.
  destruct (fetch s) as [opcode s0 o0|e s0 o0] eqn:Hf.
  - destruct (fetch_Returned _ _ _ _ Hf) as [-> ->].
    rewrite (emulate_cycle_eq _ _ Hf) in Hc.
    destruct (execute opcode (advanced s)) as [[] s1 o|e s1 o] eqn:He; [|done].
    injection Hc as <- <-. by exists opcode, s1, o.
  - unfold emulate_cycle in Hc. by rewrite (bind_Raised _ _ _ _ _ _ Hf) in Hc.
Qed.

Lemma emulate_cycle_timers s s' out :
  emulate_cycle s = Returned () s' out →
  delay_timer s' = countdown (delay_timer s) ∧
  sound_timer s' = countdown (sound_timer s).
Proof.
  intros (opcode & s1 & o & _ & He & -> & _)%emulate_cycle_Returned_inv.
  apply execute_keeps_timers in He as [Hd Hs]. simpl in Hd, Hs.
  simpl. by rewrite Hd, Hs.
Qed.

Lemma drive_cons_inv ks rest s s' out :
  drive (ks :: rest) s = Returned () s' out →
  ∃ s1 o1 o2,
    emulate_cycle (with_keys s ks) = Returned () s1 o1 ∧
    drive rest s1 = Returned () s' o2 ∧ out = o1 ++ o2.
Proof.
  simpl. intros (? & s0 & o0 & o3 & Hk & Hrest & ->)%bind_Returned_inv.
  injection Hk as _ <- <-.
  apply bind_Returned_inv in Hrest as ([] & s1 & o1 & o2 & Hc & Hd & ->).
  by exists s1, o1, o2.
Qed.

Lemma fetch_with_keys s ks opcode :
  fetch s = Returned opcode s [] →
  fetch (with_keys s ks) = Returned opcode (with_keys s ks) [].
Proof.
  rewrite !fetch_eq. simpl.
  destruct (Py.getitem (memory s) (pc s)); [done|].
  destruct (Py.getitem (memory s) (pc s + 1)); [done|].
  by intros [= ->].
Qed.
End Inversion.

Lemma countdown_nonneg t : 0 ≤ t → 0 ≤ countdown t.
Proof. unfold countdown. destruct (Z.ltb_spec 0 t); lia. Qed.

Lemma countdown_max t (n : nat) :
  0 ≤ t → Z.max 0 (countdown t - Z.of_nat n) = Z.max 0 (t - Z.of_nat (S n)).
Proof. unfold countdown. destruct (Z.ltb_spec 0 t); lia. Qed.

Lemma outside_table_Unknown opcode :
  in_table opcode = false → Chip8.decode opcode = Chip8.Unknown.
Proof.
  intros H. apply decode_Unknown. split; intros ->; vm_compute in H; done.
Qed.

Lemma Fx0A_Unknown opcode : is_Fx0A opcode → Chip8.decode opcode = Chip8.Unknown.
Proof.
  unfold is_Fx0A. intros H. apply decode_Unknown.
  split; intros ->; vm_compute in H; done.
Qed.

(** ** The opcodes the source implements (C1, C2, C3, C9) *)

(** C1, as the source has it.  Of the patterns of the dispatch table only
    00E0 and 00EE have a branch.  A cycle on a fetched 00E0 advances PC by 2,
    replaces the framebuffer by 64*32 zeros, sets the draw flag and counts
    the timers down; a cycle on a fetched 00EE advances PC by 2, lowers SP by
    1, then sets PC to [stack[SP]] as Python indexes it (raising
    [IndexError] where that index is out of range) and counts the timers
    down; every other listed pattern takes the unknown-opcode branch, which
    prints the opcode in hexadecimal and changes nothing but PC (+2) and the
    timers. *)
Theorem C1_only_CLS_and_RET_have_a_branch (s : Chip8.t) (opcode : Z) :
  in_table opcode = true →
  Chip8.fetch s = Chip8.Returned opcode s [] →
  (Chip8.decode opcode ≠ Chip8.Unknown ↔ opcode = 0x00E0 ∨ opcode = 0x00EE) ∧
  match Chip8.decode opcode with
  | Chip8.CLS =>
      opcode = 0x00E0 ∧
      Chip8.emulate_cycle s =
      Chip8.Returned ()
        (tick (Chip8.set_draw_flag
                 (Chip8.set_gfx (advanced s)
                                (Py.repeat_list 0 (CHIP8_WIDTH * CHIP8_HEIGHT)))
                 true))
        (beep s)
  | Chip8.RET =>
      opcode = 0x00EE ∧
      Chip8.emulate_cycle s =
      match Py.getitem (Chip8.stack s) (Chip8.sp s - 1) with
      | inr addr =>
          Chip8.Returned ()
            (tick (Chip8.set_pc (Chip8.set_sp (advanced s) (Chip8.sp s - 1)) addr))
            (beep s)
      | inl e => Chip8.Raised e (Chip8.set_sp (advanced s) (Chip8.sp s - 1)) []
      end
  | Chip8.Unknown =>
      opcode ≠ 0x00E0 ∧ opcode ≠ 0x00EE ∧
      Chip8.emulate_cycle s =
      Chip8.Returned () (tick (advanced s))
        (("Unknown opcode: " +:+ Py.format_X opcode)%string :: beep s)
  end.
Proof.
  intros _ Hf. split.
  - pose proof (decode_Unknown opcode) as HU. split.
    + intros Hne.
      destruct (Z.eq_dec opcode 0x00E0); [tauto|].
      destruct (Z.eq_dec opcode 0x00EE); [tauto|]. tauto.
    + intros [->| ->]; done.
  - destruct (Chip8.decode opcode) eqn:Hd.
    + apply decode_CLS in Hd as ->. split; [done|]. by apply emulate_cycle_CLS.
    + apply decode_RET in Hd as ->. split; [done|]. by apply emulate_cycle_RET.
    + pose proof Hd as [H1 H2]%decode_Unknown.
      split; [done|]. split; [done|]. by apply emulate_cycle_Unknown.
Qed.

(** C2, as the source has it.  For every state and every fetched opcode
    outside the dispatch table, the cycle returns normally (no error reaches
    the caller) after printing the line "Unknown opcode: " followed by the
    opcode in upper-case hexadecimal; PC has advanced by 2, each timer that
    was > 0 has been lowered by 1, and memory, registers, I, framebuffer,
    stack, SP, keypad and draw flag are unchanged. *)
Theorem C2_unknown_opcode_is_printed (s : Chip8.t) (opcode : Z) :
  in_table opcode = false →
  Chip8.fetch s = Chip8.Returned opcode s [] →
  ∃ s',
    Chip8.emulate_cycle s =
      Chip8.Returned () s'
        (("Unknown opcode: " +:+ Py.format_X opcode)%string :: beep s) ∧
    Chip8.pc s' = Chip8.pc s + 2 ∧
    Chip8.delay_timer s' = countdown (Chip8.delay_timer s) ∧
    Chip8.sound_timer s' = countdown (Chip8.sound_timer s) ∧
    Chip8.memory s' = Chip8.memory s ∧
    Chip8.v s' = Chip8.v s ∧
    Chip8.i s' = Chip8.i s ∧
    Chip8.gfx s' = Chip8.gfx s ∧
    Chip8.stack s' = Chip8.stack s ∧
    Chip8.sp s' = Chip8.sp s ∧
    Chip8.keys s' = Chip8.keys s ∧
    Chip8.draw_flag s' = Chip8.draw_flag s.
Proof.
  intros Htable Hf. exists (tick (advanced s)).
  split; [|by repeat split].
  apply emulate_cycle_Unknown; [done|]. by apply outside_table_Unknown.
Qed.

(** C3, as the source has it.  For every state with a 16-slot stack in which
    the fetched opcode is 0x00EE: if SP is in 1..16, the cycle returns with
    SP lowered by 1 and PC set to the stack slot at the new SP; if SP is 0
    the cycle does not fail either: it returns with SP = -1 and PC set to
    [stack[-1]], the last of the 16 slots. *)
Theorem C3_ret_pops_without_underflow_check (s : Chip8.t) :
  Chip8.fetch s = Chip8.Returned 0x00EE s [] →
  Z.of_nat (length (Chip8.stack s)) = CHIP8_STACK_SIZE →
  (1 ≤ Chip8.sp s ≤ 16 →
   ∃ s' out addr,
     Chip8.emulate_cycle s = Chip8.Returned () s' out ∧
     Chip8.stack s !! Z.to_nat (Chip8.sp s - 1) = Some addr ∧
     Chip8.sp s' = Chip8.sp s - 1 ∧
     Chip8.pc s' = addr) ∧
  (Chip8.sp s = 0 →
   ∃ s' out addr,
     Chip8.emulate_cycle s = Chip8.Returned () s' out ∧
     Chip8.stack s !! 15%nat = Some addr ∧
     Chip8.sp s' = -1 ∧
     Chip8.pc s' = addr).
Proof.
  unfold CHIP8_STACK_SIZE. intros Hf Hlen.
  pose proof (emulate_cycle_RET _ Hf) as Hc. split.
  - intros Hsp.
    destruct (getitem_inside (Chip8.stack s) (Chip8.sp s - 1))
      as (addr & Hl & Hg); [lia|].
    rewrite Hg in Hc. by eexists _, _, addr.
  - intros Hsp.
    destruct (getitem_wraps (Chip8.stack s) (Chip8.sp s - 1))
      as (addr & Hl & Hg); [lia|].
    rewrite Hg in Hc.
    replace (Z.to_nat (Z.of_nat (length (Chip8.stack s)) + (Chip8.sp s - 1)))
      with 15%nat in Hl by lia.
    eexists _, _, addr. split; [done|]. split; [done|]. simpl. split; [lia|done].
Qed.

(** C9, as the source has it.  The source has no branch for Fx0A and no
    waiting flag: for every state, every keypad snapshot handed over before
    the cycle and every fetched opcode of the shape Fx0A, the cycle takes the
    unknown-opcode branch, so it prints the opcode, advances PC by 2 at once
    and writes no register, whether or not a key is pressed. *)
Theorem C9_wait_for_key_is_unknown (s : Chip8.t) (opcode : Z) (ks : list Z) :
  is_Fx0A opcode →
  Chip8.fetch s = Chip8.Returned opcode s [] →
  ∃ s',
    (Chip8.set_keys ks ≫= λ _, Chip8.emulate_cycle) s =
      Chip8.Returned () s'
        (("Unknown opcode: " +:+ Py.format_X opcode)%string :: beep s) ∧
    Chip8.pc s' = Chip8.pc s + 2 ∧
    Chip8.v s' = Chip8.v s ∧
    Chip8.keys s' = ks.
Proof.
  intros Hop Hf. exists (tick (advanced (Chip8.with_keys s ks))).
  split; [|done].
  unfold mbind, Chip8.M_bind, Chip8.set_keys, Chip8.modify.
  rewrite printed_before_nil.
  apply (emulate_cycle_Unknown (Chip8.with_keys s ks)).
  - by apply fetch_with_keys.
  - by apply Fx0A_Unknown.
Qed.

(** ** Loading a ROM (C5, C6) *)

Section LoadRom.
Import Chip8.

Lemma set_memory_memory s : set_memory s (memory s) = s.
Proof. by destruct s. Qed.

(** A ROM that fits after offset [0x200 + idx] is copied there. *)
Lemma store_rom_fits rom : ∀ (idx : nat) s,
  (512 + idx + length rom ≤ length (memory s))%nat →
  store_rom rom (Z.of_nat idx) s =
  Returned () (set_memory s (take (512 + idx) (memory s)
                              ++ (Py.int_of_byte <$> rom)
                              ++ drop (512 + idx + length rom) (memory s))) [].
Proof.
  induction rom as [|b rest IH]; intros idx s Hlen.
  - cbn [store_rom length fmap list_fmap app]. rewrite Nat.add_0_r, take_drop.
    by rewrite set_memory_memory.
  - cbn [length] in Hlen. cbn [store_rom].
    unfold mbind at 1, M_bind at 1, get at 1. rewrite printed_before_nil.
    rewrite setitem_inside by lia.
    replace (Z.to_nat (0x200 + Z.of_nat idx)) with (512 + idx)%nat by lia.
    unfold mbind at 1, M_bind at 1, py at 1. rewrite printed_before_nil.
    unfold mbind at 1, M_bind at 1, modify at 1. rewrite printed_before_nil.
    replace (Z.of_nat idx + 1) with (Z.of_nat (S idx)) by lia.
    rewrite IH by (cbn [memory set_memory]; rewrite length_insert; lia).
    cbn [memory set_memory]. do 2 f_equal.
    replace (512 + S idx)%nat with (S (512 + idx)) by lia.
    rewrite (take_S_r _ _ (Py.int_of_byte b))
      by (apply list_lookup_insert_eq; lia).
    rewrite take_insert_ge by lia.
    rewrite drop_insert_lt by lia.
    rewrite <- app_assoc. cbn [length fmap list_fmap app].
    by replace (S (512 + idx) + length rest)%nat
      with (512 + idx + S (length rest))%nat by lia.
Qed.

(** A ROM that does not fit is copied up to the last cell, then the store
    into [memory[len(memory)]] raises. *)
Lemma store_rom_overflows rom : ∀ (idx : nat) s,
  (512 + idx ≤ length (memory s))%nat →
  (length (memory s) < 512 + idx + length rom)%nat →
  store_rom rom (Z.of_nat idx) s =
  Raised Py.IndexError
         (set_memory s (take (512 + idx) (memory s)
                         ++ (Py.int_of_byte <$>
                               take (length (memory s) - (512 + idx)) rom))) [].
Proof.
  induction rom as [|b rest IH]; intros idx s Hlo Hhi.
  - cbn [length] in Hhi. lia.
  - cbn [length] in Hhi. cbn [store_rom].
    unfold mbind at 1, M_bind at 1, get at 1. rewrite printed_before_nil.
    destruct (decide (512 + idx = length (memory s))%nat) as [Heq|Hne].
    + rewrite setitem_beyond by lia.
      unfold mbind, M_bind, py.
      replace (length (memory s) - (512 + idx))%nat with 0%nat by lia.
      rewrite Heq, take_ge by lia. cbn [take fmap list_fmap].
      by rewrite app_nil_r, set_memory_memory.
    + rewrite setitem_inside by lia.
      replace (Z.to_nat (0x200 + Z.of_nat idx)) with (512 + idx)%nat by lia.
      unfold mbind at 1, M_bind at 1, py at 1. rewrite printed_before_nil.
      unfold mbind at 1, M_bind at 1, modify at 1. rewrite printed_before_nil.
      replace (Z.of_nat idx + 1) with (Z.of_nat (S idx)) by lia.
      rewrite IH by (cbn [memory set_memory]; rewrite length_insert; lia).
      cbn [memory set_memory]. rewrite length_insert. do 2 f_equal.
      replace (512 + S idx)%nat with (S (512 + idx)) by lia.
      rewrite (take_S_r _ _ (Py.int_of_byte b))
        by (apply list_lookup_insert_eq; lia).
      rewrite take_insert_ge by lia.
      replace (length (memory s) - (512 + idx))%nat
        with (S (length (memory s) - S (512 + idx))) by lia.
      rewrite <- app_assoc. by cbn [take fmap list_fmap app].
Qed.

Lemma load_rom_eq fs path rom s :
  fs path = Some rom → load_rom fs path s = store_rom rom 0 s.
Proof.
  intros Hfs. unfold load_rom, read_file, mbind, M_bind, py. rewrite Hfs.
  apply printed_before_nil.
Qed.
End LoadRom.

(** C5, as the source has it.  For every byte sequence longer than
    4096 - 0x200 and every state whose memory has its 4096 cells, [load_rom]
    raises Python's built-in [IndexError] (there is no ProgramTooLarge) once
    it has copied the first 4096 - 0x200 bytes into memory[0x200:4096];
    memory keeps its 4096 cells, so nothing is written past its end, and no
    other attribute changes. *)
Theorem C5_oversized_rom_raises_IndexError
    (fs : string → option (list Byte.byte)) (path : string)
    (rom : list Byte.byte) (s : Chip8.t) :
  fs path = Some rom →
  Z.of_nat (length (Chip8.memory s)) = CHIP8_MEMORY_SIZE →
  4096 - 0x200 < Z.of_nat (length rom) →
  Chip8.load_rom fs path s =
    Chip8.Raised Py.IndexError
      (Chip8.set_memory s (take 512 (Chip8.memory s)
                             ++ (Py.int_of_byte <$> take 3584 rom))) [] ∧
  length (take 512 (Chip8.memory s) ++ (Py.int_of_byte <$> take 3584 rom))
    = 4096%nat.
Proof.
  unfold CHIP8_MEMORY_SIZE. intros Hfs Hlen Hrom. split.
  - rewrite (load_rom_eq _ _ _ _ Hfs).
    change 0 with (Z.of_nat 0). rewrite store_rom_overflows by lia.
    rewrite Nat.add_0_r.
    by replace (length (Chip8.memory s) - 512)%nat with 3584%nat by lia.
  - rewrite length_app, length_fmap, !length_take. lia.
Qed.

(** C6.  For every program P of at most 4096 - 0x200 bytes and every state
    whose memory has its 4096 cells, [load_rom] returns, the slice
    memory[0x200 : 0x200+len(P)] then reads exactly the bytes of P, and
    registers, I, PC, framebuffer, timers, stack, SP, keypad and draw flag
    are unchanged. *)
Theorem C6_load_rom_roundtrip
    (fs : string → option (list Byte.byte)) (path : string)
    (P : list Byte.byte) (s : Chip8.t) :
  fs path = Some P →
  Z.of_nat (length (Chip8.memory s)) = CHIP8_MEMORY_SIZE →
  Z.of_nat (length P) ≤ 4096 - 0x200 →
  ∃ s',
    Chip8.load_rom fs path s = Chip8.Returned () s' [] ∧
    Py.slice (Chip8.memory s') 0x200 (0x200 + Z.of_nat (length P))
      = Py.int_of_byte <$> P ∧
    Chip8.v s' = Chip8.v s ∧
    Chip8.i s' = Chip8.i s ∧
    Chip8.pc s' = Chip8.pc s ∧
    Chip8.gfx s' = Chip8.gfx s ∧
    Chip8.delay_timer s' = Chip8.delay_timer s ∧
    Chip8.sound_timer s' = Chip8.sound_timer s ∧
    Chip8.stack s' = Chip8.stack s ∧
    Chip8.sp s' = Chip8.sp s ∧
    Chip8.keys s' = Chip8.keys s ∧
    Chip8.draw_flag s' = Chip8.draw_flag s.
Proof.
  unfold CHIP8_MEMORY_SIZE. intros Hfs Hlen HP.
  eexists. split.
  { rewrite (load_rom_eq _ _ _ _ Hfs).
    change 0 with (Z.of_nat 0). by rewrite store_rom_fits by lia. }
  split; [|by repeat split].
  cbn [Chip8.memory Chip8.set_memory]. rewrite Nat.add_0_r.
  change 0x200 with (Z.of_nat 512).
  rewrite slice_inside.
  - rewrite drop_app_length' by (rewrite length_take; lia).
    by rewrite take_app_length' by (by rewrite length_fmap).
  - rewrite !length_app, length_fmap, length_take, length_drop. lia.
Qed.

(** ** Concrete runs *)

(** 1234 (JP 0x234) is a listed pattern, yet the cycle prints it as unknown
    and PC ends at 0x202, not 0x234. *)
Lemma C1_counterexample :
  in_table 0x1234 = true ∧
  Chip8.fetch jp_state = Chip8.Returned 0x1234 jp_state [] ∧
  Chip8.decode 0x1234 = Chip8.Unknown ∧
  Chip8.emulate_cycle jp_state =
    Chip8.Returned () (Chip8.set_pc jp_state 0x202) ["Unknown opcode: 1234"%string] ∧
  Chip8.pc (Chip8.set_pc jp_state 0x202) ≠ 0x234.
Proof. repeat split; vm_compute; (reflexivity || discriminate). Qed.

(** The implemented CLS on a fresh machine. *)
Lemma C1_witness :
  in_table 0x00E0 = true ∧
  Chip8.emulate_cycle cls_state =
    Chip8.Returned ()
      (tick (Chip8.set_draw_flag
               (Chip8.set_gfx (advanced cls_state)
                              (Py.repeat_list 0 (CHIP8_WIDTH * CHIP8_HEIGHT)))
               true))
      (beep cls_state).
Proof.
  split; [reflexivity|].
  apply (C1_only_CLS_and_RET_have_a_branch cls_state 0x00E0);
    vm_compute; reflexivity.
Defined.

(** On 5FFF the cycle returns normally, and the delay timer went from 5 to 4. *)
Lemma C2_counterexample :
  in_table 0x5FFF = false ∧
  Chip8.fetch unknown_state = Chip8.Returned 0x5FFF unknown_state [] ∧
  Chip8.emulate_cycle unknown_state =
    Chip8.Returned ()
      (Chip8.set_delay_timer (Chip8.set_pc unknown_state 0x202) 4)
      ["Unknown opcode: 5FFF"%string] ∧
  ¬ fails_with (Chip8.emulate_cycle unknown_state) "UnknownOpcode" ∧
  Chip8.delay_timer (state_of (Chip8.emulate_cycle unknown_state))
    ≠ Chip8.delay_timer unknown_state.
Proof.
  repeat split; try (vm_compute; reflexivity).
  - vm_compute. tauto.
  - vm_compute. discriminate.
Qed.

(** The unknown-opcode cycle on 5FFF. *)
Lemma C2_witness :
  ∃ s',
    Chip8.emulate_cycle unknown_state =
      Chip8.Returned () s'
        (("Unknown opcode: " +:+ Py.format_X 0x5FFF)%string :: beep unknown_state) ∧
    Chip8.pc s' = Chip8.pc unknown_state + 2 ∧
    Chip8.delay_timer s' = countdown (Chip8.delay_timer unknown_state) ∧
    Chip8.sound_timer s' = countdown (Chip8.sound_timer unknown_state) ∧
    Chip8.memory s' = Chip8.memory unknown_state ∧
    Chip8.v s' = Chip8.v unknown_state ∧
    Chip8.i s' = Chip8.i unknown_state ∧
    Chip8.gfx s' = Chip8.gfx unknown_state ∧
    Chip8.stack s' = Chip8.stack unknown_state ∧
    Chip8.sp s' = Chip8.sp unknown_state ∧
    Chip8.keys s' = Chip8.keys unknown_state ∧
    Chip8.draw_flag s' = Chip8.draw_flag unknown_state.
Proof.
  apply (C2_unknown_opcode_is_printed unknown_state 0x5FFF);
    vm_compute; reflexivity.
Defined.

(** RET with SP = 0 returns normally: SP = -1 and PC = stack[-1] = 0x300. *)
Lemma C3_counterexample :
  Chip8.sp ret_empty_state = 0 ∧
  Chip8.fetch ret_empty_state = Chip8.Returned 0x00EE ret_empty_state [] ∧
  Chip8.emulate_cycle ret_empty_state =
    Chip8.Returned ()
      (Chip8.set_pc (Chip8.set_sp ret_empty_state (-1)) 0x300) [] ∧
  ¬ fails_with (Chip8.emulate_cycle ret_empty_state) "StackUnderflow".
Proof.
  repeat split; try (vm_compute; reflexivity).
  vm_compute. tauto.
Qed.

(** RET with one return address on the stack. *)
Lemma C3_witness :
  ∃ s' out addr,
    Chip8.emulate_cycle ret_one_state = Chip8.Returned () s' out ∧
    Chip8.stack ret_one_state !! Z.to_nat (Chip8.sp ret_one_state - 1) = Some addr ∧
    Chip8.sp s' = Chip8.sp ret_one_state - 1 ∧
    Chip8.pc s' = addr.
Proof.
  destruct (C3_ret_pops_without_underflow_check ret_one_state) as [H _];
    [vm_compute; reflexivity | vm_compute; reflexivity |].
  apply H. vm_compute. split; discriminate.
Defined.

(** With PC = 4095 the cycle raises IndexError, not FetchOutOfBounds. *)
Lemma C4_counterexample :
  4096 ≤ Chip8.pc edge_state + 1 ∧
  Chip8.emulate_cycle edge_state = Chip8.Raised Py.IndexError edge_state [] ∧
  ¬ fails_with (Chip8.emulate_cycle edge_state) "FetchOutOfBounds".
Proof.
  repeat split; try (vm_compute; reflexivity).
  - vm_compute. discriminate.
  - vm_compute. discriminate.
Qed.

(** The fetch at PC = 0x200. *)
Lemma C4_witness :
  (fails_with (Chip8.fetch cls_state) "IndexError" ↔ 4096 ≤ Chip8.pc cls_state + 1) ∧
  ∃ hi lo,
    Chip8.memory cls_state !! Z.to_nat (Chip8.pc cls_state) = Some hi ∧
    Chip8.memory cls_state !! Z.to_nat (Chip8.pc cls_state + 1) = Some lo ∧
    Chip8.fetch cls_state = Chip8.Returned (Z.lor (Z.shiftl hi 8) lo) cls_state [].
Proof.
  destruct (C4_fetch_bounds cls_state) as (Hiff & _ & Hin);
    [vm_compute; reflexivity | vm_compute; discriminate |].
  split; [exact Hiff|]. apply Hin. vm_compute. reflexivity.
Defined.

(** A ROM of 3585 bytes: IndexError after 3584 bytes were copied. *)
Lemma C5_counterexample :
  4096 - 0x200 < Z.of_nat (length oversized_rom) ∧
  Chip8.load_rom (single_file "game.ch8" oversized_rom) "game.ch8" Chip8.init =
    Chip8.Raised Py.IndexError
      (Chip8.set_memory Chip8.init
         (take 512 (Chip8.memory Chip8.init) ++ replicate 3584 1)) [] ∧
  ¬ fails_with
      (Chip8.load_rom (single_file "game.ch8" oversized_rom) "game.ch8" Chip8.init)
      "ProgramTooLarge".
Proof.
  repeat split; try (vm_compute; reflexivity).
  vm_compute. discriminate.
Qed.

(** The same ROM through the general statement. *)
Lemma C5_witness :
  Chip8.load_rom (single_file "game.ch8" oversized_rom) "game.ch8" Chip8.init =
    Chip8.Raised Py.IndexError
      (Chip8.set_memory Chip8.init
         (take 512 (Chip8.memory Chip8.init)
            ++ (Py.int_of_byte <$> take 3584 oversized_rom))) [] ∧
  length (take 512 (Chip8.memory Chip8.init)
            ++ (Py.int_of_byte <$> take 3584 oversized_rom)) = 4096%nat.
Proof.
  apply (C5_oversized_rom_raises_IndexError
           (single_file "game.ch8" oversized_rom) "game.ch8" oversized_rom
           Chip8.init);
    vm_compute; reflexivity.
Defined.

(** Loading the two-byte program 00E0. *)
Lemma C6_witness :
  ∃ s',
    Chip8.load_rom (single_file "game.ch8" cls_rom) "game.ch8" Chip8.init
      = Chip8.Returned () s' [] ∧
    Py.slice (Chip8.memory s') 0x200 (0x200 + Z.of_nat (length cls_rom))
      = Py.int_of_byte <$> cls_rom ∧
    Chip8.v s' = Chip8.v Chip8.init ∧
    Chip8.i s' = Chip8.i Chip8.init ∧
    Chip8.pc s' = Chip8.pc Chip8.init ∧
    Chip8.gfx s' = Chip8.gfx Chip8.init ∧
    Chip8.delay_timer s' = Chip8.delay_timer Chip8.init ∧
    Chip8.sound_timer s' = Chip8.sound_timer Chip8.init ∧
    Chip8.stack s' = Chip8.stack Chip8.init ∧
    Chip8.sp s' = Chip8.sp Chip8.init ∧
    Chip8.keys s' = Chip8.keys Chip8.init ∧
    Chip8.draw_flag s' = Chip8.draw_flag Chip8.init.
Proof.
  apply (C6_load_rom_roundtrip
           (single_file "game.ch8" cls_rom) "game.ch8" cls_rom Chip8.init);
    vm_compute; (reflexivity || discriminate).
Defined.

(** CLS on a fresh machine. *)
Lemma C8_witness :
  ∃ s' out,
    Chip8.emulate_cycle cls_state = Chip8.Returned () s' out ∧
    Chip8.gfx s' = replicate 2048 0 ∧
    (∀ x y, 0 ≤ x < CHIP8_WIDTH → 0 ≤ y < CHIP8_HEIGHT →
            Py.getitem (Chip8.gfx s') (x + y * CHIP8_WIDTH) = inr 0) ∧
    Chip8.draw_flag s' = true.
Proof.
  apply (C8_cls_clears_framebuffer cls_state). vm_compute. reflexivity.
Defined.

(** After F00A ran, a further cycle with no key pressed moves PC from 0x202
    to 0x204. *)
Lemma C9_counterexample :
  Chip8.fetch wait_state = Chip8.Returned 0xF00A wait_state [] ∧
  (Chip8.set_keys no_key_pressed ≫= λ _, Chip8.emulate_cycle) wait_state =
    Chip8.Returned () (Chip8.set_pc wait_state 0x202)
      ["Unknown opcode: F00A"%string] ∧
  (Chip8.set_keys no_key_pressed ≫= λ _, Chip8.emulate_cycle)
      (Chip8.set_pc wait_state 0x202) =
    Chip8.Returned () (Chip8.set_pc wait_state 0x204)
      ["Unknown opcode: 0"%string] ∧
  Chip8.pc (Chip8.set_pc wait_state 0x204) ≠ Chip8.pc (Chip8.set_pc wait_state 0x202).
Proof.
  repeat split; try (vm_compute; reflexivity).
  vm_compute. discriminate.
Qed.

(** F00A with key 5 pressed: still the unknown-opcode branch. *)
Lemma C9_witness :
  ∃ s',
    (Chip8.set_keys (<[5%nat := 1]> no_key_pressed) ≫= λ _, Chip8.emulate_cycle)
        wait_state =
      Chip8.Returned () s'
        (("Unknown opcode: " +:+ Py.format_X 0xF00A)%string :: beep wait_state) ∧
    Chip8.pc s' = Chip8.pc wait_state + 2 ∧
    Chip8.v s' = Chip8.v wait_state ∧
    Chip8.keys s' = <[5%nat := 1]> no_key_pressed.
Proof.
  apply (C9_wait_for_key_is_unknown wait_state 0xF00A); vm_compute; reflexivity.
Defined.

(** ** Every outcome of a cycle *)

Section Outcomes.
Import Chip8.

Lemma fetch_Raised s e s' o :
  fetch s = Raised e s' o → e = Py.IndexError ∧ s' = s ∧ o = [].
Proof.
  rewrite fetch_eq.
  destruct (Py.getitem (memory s) (pc s)) as [e1|hi] eqn:G1.
  - intros [= <- <- <-]. by rewrite (getitem_raises_IndexError _ _ _ G1).
  - destruct (Py.getitem (memory s) (pc s + 1)) as [e2|lo] eqn:G2; [|done].
    intros [= <- <- <-]. by rewrite (getitem_raises_IndexError _ _ _ G2).
Qed.

(** The five ways a cycle can go. *)
Lemma emulate_cycle_outcome s :
  (¬ (∃ opcode, fetch s = Returned opcode s []) ∧
   emulate_cycle s = Raised Py.IndexError s []) ∨
  (fetch s = Returned 0x00E0 s [] ∧
   emulate_cycle s =
     Returned () (tick (set_draw_flag
                          (set_gfx (advanced s)
                                   (Py.repeat_list 0 (CHIP8_WIDTH * CHIP8_HEIGHT)))
                          true)) (beep s)) ∨
  (fetch s = Returned 0x00EE s [] ∧
   ∃ addr, Py.getitem (stack s) (sp s - 1) = inr addr ∧
           emulate_cycle s =
             Returned () (tick (set_pc (set_sp (advanced s) (sp s - 1)) addr))
                      (beep s)) ∨
  (fetch s = Returned 0x00EE s [] ∧
   Py.getitem (stack s) (sp s - 1) = inl Py.IndexError ∧
   emulate_cycle s = Raised Py.IndexError (set_sp (advanced s) (sp s - 1)) []) ∨
  (∃ opcode, fetch s = Returned opcode s [] ∧ decode opcode = Unknown ∧
             emulate_cycle s =
               Returned () (tick (advanced s))
                        (("Unknown opcode: " +:+ Py.format_X opcode)%string :: beep s)).
Proof.
  destruct (fetch s) as [opcode s0 o0|e s0 o0] eqn:Hf.
  - destruct (fetch_Returned _ _ _ _ Hf) as [-> ->].
    destruct (decode opcode) eqn:Hd.
    + apply decode_CLS in Hd as ->. right; left.
      split; [done|]. by apply emulate_cycle_CLS.
    + apply decode_RET in Hd as ->.
      pose proof (emulate_cycle_RET _ Hf) as Hc.
      destruct (Py.getitem (stack s) (sp s - 1)) as [e|addr] eqn:Hg.
      * rewrite (getitem_raises_IndexError _ _ _ Hg) in *.
        right; right; right; left. done.
      * right; right; left. split; [done|]. by exists addr.
    + right; right; right; right. exists opcode.
      split; [done|]. split; [done|]. by apply emulate_cycle_Unknown.
  - destruct (fetch_Raised _ _ _ _ Hf) as (-> & -> & ->). left. split.
    + by intros [opcode Hop].
    + unfold emulate_cycle. by apply bind_Raised.
Qed.

Lemma state_of_printed_before {A} o (r : outcome A) :
  state_of (printed_before o r) = state_of r.
Proof. by destruct r. Qed.

(** A relation every cycle and every keypad hand-over respects holds between
    the ends of a driven run. *)
Lemma drive_related (R : t → t → Prop) :
  (∀ s, R s s) →
  (∀ a b c, R a b → R b c → R a c) →
  (∀ s, R s (state_of (emulate_cycle s))) →
  (∀ s ks, R s (with_keys s ks)) →
  ∀ snapshots s, R s (state_of (drive snapshots s)).
Proof.
  intros Hrefl Htrans Hcycle Hkeys.
  induction snapshots as [|ks rest IH]; intros s; [apply Hrefl|].
  cbn [drive]. unfold mbind at 1, M_bind at 1, set_keys at 1, modify at 1.
  rewrite state_of_printed_before.
  apply (Htrans _ (with_keys s ks)); [apply Hkeys|].
  pose proof (Hcycle (with_keys s ks)) as Hc.
  unfold mbind, M_bind.
  destruct (emulate_cycle (with_keys s ks)) as [[] s1 o1|e s1 o1]; [|done].
  rewrite state_of_printed_before.
  by apply (Htrans _ s1); [|apply IH].
Qed.

Lemma setitem_length {A} (l l' : list A) k x :
  Py.setitem l k x = inr l' → length l' = length l.
Proof.
  unfold Py.setitem. destruct (Py.position _ _); [|done].
  intros [= <-]. apply length_insert.
Qed.

Lemma store_rom_cons b rest idx s :
  store_rom (b :: rest) idx s =
  match Py.setitem (memory s) (0x200 + idx) (Py.int_of_byte b) with
  | inl e => Raised e s []
  | inr mem => store_rom rest (idx + 1) (set_memory s mem)
  end.
Proof.
  cbn [store_rom]. unfold mbind, M_bind, get, py, modify.
  destruct (Py.setitem (memory s) (0x200 + idx) (Py.int_of_byte b)); [done|].
  cbn [printed_before].
  by destruct (store_rom rest (idx + 1) (set_memory s l)).
Qed.

(** Whatever way [store_rom] ends, it has assigned cells of memory at
    0x200 and above and nothing else. *)
Lemma store_rom_frame rom : ∀ (idx : Z) s,
  0 ≤ idx →
  length (memory (state_of (store_rom rom idx s))) = length (memory s) ∧
  take 512 (memory (state_of (store_rom rom idx s))) = take 512 (memory s) ∧
  set_memory (state_of (store_rom rom idx s)) (memory s) = s.
Proof.
  induction rom as [|b rest IH]; intros idx s Hidx.
  - cbn [store_rom]. unfold mret, M_ret. cbn [state_of].
    split; [done|]. split; [done|]. by destruct s.
  - rewrite store_rom_cons.
    destruct (Py.setitem (memory s) (0x200 + idx) (Py.int_of_byte b))
      as [e|mem] eqn:Hset.
    { cbn [state_of]. split; [done|]. split; [done|]. by destruct s. }
    destruct (IH (idx + 1) (set_memory s mem)) as (Hlen & Htake & Hrest); [lia|].
    cbn [memory set_memory] in Hlen, Htake, Hrest.
    rewrite Hlen, Htake. split; [by eapply setitem_length|]. split.
    + unfold Py.setitem in Hset.
      rewrite position_nonneg in Hset by lia.
      destruct (Z.ltb_spec (0x200 + idx) (Z.of_nat (length (memory s)))); [|done].
      injection Hset as <-. apply take_insert_ge. lia.
    + destruct s. unfold set_memory in *. cbn in *.
      injection Hrest. intros. congruence.
Qed.
End Outcomes.

(** ** What a cycle and a load leave alone *)

Lemma drive_cons ks rest s :
  Chip8.drive (ks :: rest) s =
  match Chip8.emulate_cycle (Chip8.with_keys s ks) with
  | Chip8.Returned _ s1 o1 => Chip8.printed_before o1 (Chip8.drive rest s1)
  | Chip8.Raised e s1 o1 => Chip8.Raised e s1 o1
  end.
Proof.
  cbn [Chip8.drive]. unfold mbind, Chip8.M_bind, Chip8.set_keys, Chip8.modify.
  apply printed_before_nil.
Qed.

Ltac cycle_cases s :=
  destruct (emulate_cycle_outcome s)
    as [(Hnofetch & Hcycle)
       |[(Hfetch & Hcycle)
        |[(Hfetch & addr & Hread & Hcycle)
         |[(Hfetch & Hread & Hcycle)
          |(opcode & Hfetch & Hdecode & Hcycle)]]]].

Lemma load_rom_state fs path s :
  (∃ rom, fs path = Some rom ∧
          Chip8.load_rom fs path s = Chip8.store_rom rom 0 s) ∨
  (fs path = None ∧
   Chip8.load_rom fs path s = Chip8.Raised Py.FileNotFoundError s []).
Proof.
  destruct (fs path) as [rom|] eqn:Hfs.
  - left. exists rom. split; [done|]. by apply load_rom_eq.
  - right. split; [done|].
    unfold Chip8.load_rom, Chip8.read_file, mbind, Chip8.M_bind, Chip8.py.
    by rewrite Hfs.
Qed.

(** X1.  The list lengths [__init__] sets up (memory 4096, registers 16,
    framebuffer 2048, stack 16, keypad 16) hold on a fresh machine and are
    kept by [emulate_cycle] and by [load_rom], whether the call returns or
    raises. *)
Theorem X1_shape_is_kept :
  shaped Chip8.init ∧
  (∀ s, shaped s → shaped (state_of (Chip8.emulate_cycle s))) ∧
  (∀ fs path s, shaped s → shaped (state_of (Chip8.load_rom fs path s))).
Proof.
  split; [by vm_compute|]. split.
  - intros s (Hm & Hv & Hg & Hs & Hk).
    cycle_cases s; rewrite Hcycle; by repeat split.
  - intros fs path s (Hm & Hv & Hg & Hs & Hk).
    destruct (load_rom_state fs path s) as [(rom & _ & ->)|(_ & ->)];
      [|by repeat split].
    destruct (store_rom_frame rom 0 s) as (Hlen & _ & Hrest); [done|].
    rewrite <- Hrest in Hv, Hg, Hs, Hk. unfold shaped. by rewrite Hlen.
Qed.

(** X2.  No cycle ever assigns memory, a register, I, a stack slot or the
    keypad, whether it returns or raises; so over any driven run memory,
    registers, I and stack stay what they were. *)
Theorem X2_cycle_never_writes :
  (∀ s,
     Chip8.memory (state_of (Chip8.emulate_cycle s)) = Chip8.memory s ∧
     Chip8.v (state_of (Chip8.emulate_cycle s)) = Chip8.v s ∧
     Chip8.i (state_of (Chip8.emulate_cycle s)) = Chip8.i s ∧
     Chip8.stack (state_of (Chip8.emulate_cycle s)) = Chip8.stack s ∧
     Chip8.keys (state_of (Chip8.emulate_cycle s)) = Chip8.keys s) ∧
  (∀ snapshots s,
     Chip8.memory (state_of (Chip8.drive snapshots s)) = Chip8.memory s ∧
     Chip8.v (state_of (Chip8.drive snapshots s)) = Chip8.v s ∧
     Chip8.i (state_of (Chip8.drive snapshots s)) = Chip8.i s ∧
     Chip8.stack (state_of (Chip8.drive snapshots s)) = Chip8.stack s).
Proof.
  assert (Hone : ∀ s,
     Chip8.memory (state_of (Chip8.emulate_cycle s)) = Chip8.memory s ∧
     Chip8.v (state_of (Chip8.emulate_cycle s)) = Chip8.v s ∧
     Chip8.i (state_of (Chip8.emulate_cycle s)) = Chip8.i s ∧
     Chip8.stack (state_of (Chip8.emulate_cycle s)) = Chip8.stack s ∧
     Chip8.keys (state_of (Chip8.emulate_cycle s)) = Chip8.keys s).
  { intros s. cycle_cases s; by rewrite Hcycle. }
  split; [done|]. intros snapshots s.
  apply (drive_related
           (λ a b, Chip8.memory b = Chip8.memory a ∧ Chip8.v b = Chip8.v a ∧
                   Chip8.i b = Chip8.i a ∧ Chip8.stack b = Chip8.stack a)).
  - done.
  - intros a b c (-> & -> & -> & ->) (-> & -> & -> & ->). done.
  - intros s0. destruct (Hone s0) as (? & ? & ? & ? & _). done.
  - done.
Qed.

(** X3.  The stack pointer never goes up: a cycle lowers it by 1 exactly when
    the fetched opcode is 00EE (also when the stack read then raises) and
    leaves it alone otherwise, so after a driven run of n cycles it lies
    between SP - n and SP. *)
Theorem X3_sp_only_descends :
  (∀ s,
     (Chip8.fetch s = Chip8.Returned 0x00EE s [] →
      Chip8.sp (state_of (Chip8.emulate_cycle s)) = Chip8.sp s - 1) ∧
     (Chip8.fetch s ≠ Chip8.Returned 0x00EE s [] →
      Chip8.sp (state_of (Chip8.emulate_cycle s)) = Chip8.sp s)) ∧
  (∀ snapshots s,
     Chip8.sp s - Z.of_nat (length snapshots)
       ≤ Chip8.sp (state_of (Chip8.drive snapshots s)) ≤ Chip8.sp s).
Proof.
  assert (Hone : ∀ s,
     (Chip8.fetch s = Chip8.Returned 0x00EE s [] →
      Chip8.sp (state_of (Chip8.emulate_cycle s)) = Chip8.sp s - 1) ∧
     (Chip8.fetch s ≠ Chip8.Returned 0x00EE s [] →
      Chip8.sp (state_of (Chip8.emulate_cycle s)) = Chip8.sp s)).
  { intros s. cycle_cases s; rewrite Hcycle; cbn; split; try done.
    - intros Hf. destruct Hnofetch. by eexists.
    - rewrite Hfetch. done.
    - rewrite Hfetch. intros [= ->]. by apply decode_Unknown in Hdecode as [_ ?]. }
  split; [done|].
  induction snapshots as [|ks rest IH]; intros s; [cbn; lia|].
  rewrite drive_cons. cbn [length].
  assert (Hstep : Chip8.sp s - 1
                    ≤ Chip8.sp (state_of (Chip8.emulate_cycle (Chip8.with_keys s ks)))
                    ≤ Chip8.sp s).
  { cycle_cases (Chip8.with_keys s ks); rewrite Hcycle; cbn; lia. }
  destruct (Chip8.emulate_cycle (Chip8.with_keys s ks)) as [[] s1 o1|e s1 o1].
  - rewrite state_of_printed_before. cbn [state_of] in Hstep.
    specialize (IH s1). lia.
  - cbn [state_of] in *. lia.
Qed.

Lemma cycle_gfx s :
  Chip8.gfx (state_of (Chip8.emulate_cycle s)) = Chip8.gfx s ∨
  dark (state_of (Chip8.emulate_cycle s)).
Proof. cycle_cases s; rewrite Hcycle; cbn; auto. by right. Qed.

Lemma dark_drive snapshots s :
  dark s → dark (state_of (Chip8.drive snapshots s)).
Proof.
  apply (drive_related (λ a b, dark a → dark b)).
  - done.
  - auto.
  - intros s0 Hdark. destruct (cycle_gfx s0) as [Heq|Hd]; [|done].
    unfold dark in *. by rewrite Heq.
  - done.
Qed.

Lemma dark_fresh_run fs path snapshots :
  dark (state_of (Chip8.drive snapshots
                    (state_of (Chip8.load_rom fs path Chip8.init)))).
Proof.
  apply dark_drive. unfold dark.
  destruct (load_rom_state fs path Chip8.init) as [(rom & _ & ->)|(_ & ->)];
    [|done].
  destruct (store_rom_frame rom 0 Chip8.init) as (_ & _ & Hrest); [done|].
  transitivity (Chip8.gfx Chip8.init);
    [exact (f_equal Chip8.gfx Hrest)|by vm_compute].
Qed.

(** X4.  A cycle either leaves the framebuffer as it is or clears it: no
    branch lights a pixel.  So a framebuffer that is all zeros stays so over
    any driven run, and on a fresh machine it is all zeros after loading any
    ROM and running any number of cycles with any keypad input. *)
Theorem X4_no_pixel_is_ever_lit :
  (∀ s, Chip8.gfx (state_of (Chip8.emulate_cycle s)) = Chip8.gfx s ∨
        dark (state_of (Chip8.emulate_cycle s))) ∧
  (∀ snapshots s, dark s → dark (state_of (Chip8.drive snapshots s))) ∧
  (∀ fs path snapshots,
     dark (state_of (Chip8.drive snapshots
                       (state_of (Chip8.load_rom fs path Chip8.init))))).
Proof.
  split; [apply cycle_gfx|]. split; [apply dark_drive|apply dark_fresh_run].
Qed.

(** X5.  A cycle never lowers the draw flag: afterwards it is up exactly when
    it was up before or the cycle fetched 00E0. *)
Theorem X5_draw_flag_is_only_raised (s : Chip8.t) :
  Chip8.draw_flag (state_of (Chip8.emulate_cycle s)) = true ↔
  Chip8.draw_flag s = true ∨ Chip8.fetch s = Chip8.Returned 0x00E0 s [].
Proof.
  cycle_cases s; rewrite Hcycle; cbn.
  - split; [by left|]. intros [?|Hf]; [done|]. destruct Hnofetch. by eexists.
  - split; [by right|done].
  - split; [by left|]. intros [?|Hf]; [done|]. by rewrite Hfetch in Hf.
  - split; [by left|]. intros [?|Hf]; [done|]. by rewrite Hfetch in Hf.
  - split; [by left|]. intros [?|Hf]; [done|].
    rewrite Hfetch in Hf. injection Hf as ->. done.
Qed.

(** X6.  However [load_rom] ends (it returns, the file is missing, or the
    ROM runs past the end of memory), memory keeps its length, its cells below
    0x200, where the fontset lives, are untouched, and no other attribute of
    the machine has changed. *)
Theorem X6_load_rom_touches_program_space_only
    (fs : string → option (list Byte.byte)) (path : string) (s : Chip8.t) :
  length (Chip8.memory (state_of (Chip8.load_rom fs path s)))
    = length (Chip8.memory s) ∧
  take 512 (Chip8.memory (state_of (Chip8.load_rom fs path s)))
    = take 512 (Chip8.memory s) ∧
  Chip8.set_memory (state_of (Chip8.load_rom fs path s)) (Chip8.memory s) = s.
Proof.
  destruct (load_rom_state fs path s) as [(rom & _ & ->)|(_ & ->)].
  - by apply store_rom_frame.
  - cbn [state_of]. by rewrite set_memory_memory.
Qed.

(** X7.  RET reads the stack with Python's indexing at SP-1.  On a 16-slot
    stack it raises [IndexError] exactly when SP < -15 or SP > 16, leaving PC
    advanced by 2, SP lowered by 1 and the timers not counted down; for SP in
    -15..0 it does not raise but wraps around: PC becomes the slot SP+15. *)
Theorem X7_ret_out_of_range (s : Chip8.t) :
  Chip8.fetch s = Chip8.Returned 0x00EE s [] →
  length (Chip8.stack s) = 16%nat →
  (fails_with (Chip8.emulate_cycle s) "IndexError"
     ↔ Chip8.sp s < -15 ∨ 16 < Chip8.sp s) ∧
  (Chip8.sp s < -15 ∨ 16 < Chip8.sp s →
   Chip8.emulate_cycle s =
     Chip8.Raised Py.IndexError
       (Chip8.set_sp (advanced s) (Chip8.sp s - 1)) []) ∧
  (-15 ≤ Chip8.sp s ≤ 0 →
   ∃ addr,
     Chip8.stack s !! Z.to_nat (Chip8.sp s + 15) = Some addr ∧
     Chip8.emulate_cycle s =
       Chip8.Returned ()
         (tick (Chip8.set_pc (Chip8.set_sp (advanced s) (Chip8.sp s - 1)) addr))
         (beep s)).
Proof.
  intros Hf Hlen. pose proof (emulate_cycle_RET _ Hf) as Hc.
  assert (Hout : Chip8.sp s < -15 ∨ 16 < Chip8.sp s →
                 Chip8.emulate_cycle s =
                   Chip8.Raised Py.IndexError
                     (Chip8.set_sp (advanced s) (Chip8.sp s - 1)) []).
  { intros [Hlo|Hhi].
    - by rewrite getitem_below in Hc by lia.
    - by rewrite getitem_beyond in Hc by lia. }
  split; [split|split]; [| |done|].
  - intros Hfail.
    destruct (decide (Chip8.sp s < -15 ∨ 16 < Chip8.sp s)) as [|Hin]; [done|].
    destruct (decide (0 ≤ Chip8.sp s - 1)) as [Hpos|Hneg].
    + destruct (getitem_inside (Chip8.stack s) (Chip8.sp s - 1))
        as (addr & _ & Hg); [lia|].
      rewrite Hg in Hc. by rewrite Hc in Hfail.
    + destruct (getitem_wraps (Chip8.stack s) (Chip8.sp s - 1))
        as (addr & _ & Hg); [lia|].
      rewrite Hg in Hc. by rewrite Hc in Hfail.
  - intros Hrange. by rewrite (Hout Hrange).
  - intros Hsp.
    destruct (getitem_wraps (Chip8.stack s) (Chip8.sp s - 1))
      as (addr & Hl & Hg); [lia|].
    rewrite Hg in Hc. exists addr. split; [|done].
    by replace (Z.to_nat (Chip8.sp s + 15))
      with (Z.to_nat (Z.of_nat (length (Chip8.stack s)) + (Chip8.sp s - 1)))
      by lia.
Qed.

(** ** The beep *)

Lemma cycle_output s s' out :
  Chip8.emulate_cycle s = Chip8.Returned () s' out →
  out = beep s ∨
  ∃ opcode, out = ("Unknown opcode: " +:+ Py.format_X opcode)%string :: beep s.
Proof.
  cycle_cases s; rewrite Hcycle; try done.
  - intros [= _ <-]. by left.
  - intros [= _ <-]. by left.
  - intros [= _ <-]. right. by exists opcode.
Qed.

Lemma unknown_line_is_no_beep x :
  ("Unknown opcode: " +:+ x)%string ≠ "BEEP!"%string.
Proof. done. Qed.

Lemma beeps_app o1 o2 : beeps (o1 ++ o2) = (beeps o1 + beeps o2)%nat.
Proof. unfold beeps. by rewrite filter_app, length_app. Qed.

Lemma beeps_beep s :
  beeps (beep s) = if Chip8.sound_timer s =? 1 then 1%nat else 0%nat.
Proof. unfold beep. by destruct (Chip8.sound_timer s =? 1). Qed.

Lemma beeps_cycle s s' out :
  Chip8.emulate_cycle s = Chip8.Returned () s' out →
  beeps out = if Chip8.sound_timer s =? 1 then 1%nat else 0%nat.
Proof.
  intros [->|[opcode ->]]%cycle_output; [apply beeps_beep|].
  rewrite <- beeps_beep. unfold beeps.
  by rewrite filter_cons_False by apply unknown_line_is_no_beep.
Qed.

(** X8.  A returning cycle prints "BEEP!" exactly when the sound timer stood
    at 1 before it, that is on the timer's step from 1 to 0.  Over a driven
    run of n returning cycles the beep is therefore printed once if the sound
    timer started in 1..n, and not at all otherwise. *)
Theorem X8_beep_on_the_last_tick :
  (∀ s s' out,
     Chip8.emulate_cycle s = Chip8.Returned () s' out →
     ("BEEP!"%string ∈ out ↔ Chip8.sound_timer s = 1)) ∧
  (∀ snapshots s s' out,
     Chip8.drive snapshots s = Chip8.Returned () s' out →
     beeps out =
       if (1 <=? Chip8.sound_timer s)
          && (Chip8.sound_timer s <=? Z.of_nat (length snapshots))
       then 1%nat else 0%nat).
Proof.
  split.
  - intros s s' out Hc.
    assert (Hb : "BEEP!"%string ∈ beep s ↔ Chip8.sound_timer s = 1).
    { unfold beep. destruct (Z.eqb_spec (Chip8.sound_timer s) 1) as [->|Hne].
      - split; [done|]. intros _. apply list_elem_of_singleton. done.
      - split; [|done]. by intros ?%not_elem_of_nil. }
    destruct (cycle_output _ _ _ Hc) as [->|[opcode ->]]; [done|].
    rewrite elem_of_cons, Hb. split; [|by right].
    intros [Heq|?]; [|done]. symmetry in Heq.
    by apply unknown_line_is_no_beep in Heq.
  - induction snapshots as [|ks rest IH]; intros s s' out Hrun.
    + injection Hrun as _ <-. cbn [length]. unfold beeps. cbn.
      change (Z.of_nat 0) with 0.
      destruct (Z.leb_spec 1 (Chip8.sound_timer s));
        destruct (Z.leb_spec (Chip8.sound_timer s) 0); cbn; try done; lia.
    + apply drive_cons_inv in Hrun as (s1 & o1 & o2 & Hc & Hrest & ->).
      rewrite beeps_app, (beeps_cycle _ _ _ Hc), (IH _ _ _ Hrest).
      apply emulate_cycle_timers in Hc as [_ ->].
      cbn [Chip8.sound_timer Chip8.with_keys length]. unfold countdown.
      generalize (Chip8.sound_timer s). intros t.
      destruct (Z.eqb_spec t 1); destruct (Z.ltb_spec 0 t);
        destruct (Z.leb_spec 1 t);
        destruct (Z.leb_spec t (Z.of_nat (S (length rest))));
        destruct (Z.leb_spec 1 (t - 1));
        destruct (Z.leb_spec (t - 1) (Z.of_nat (length rest)));
        cbn; try done; lia.
Qed.

(** ** Opcodes as two bytes *)

Lemma lor_bytes hi lo :
  0 ≤ lo < 256 → Z.lor (Z.shiftl hi 8) lo = hi * 256 + lo.
Proof.
  intros Hlo. rewrite Z.shiftl_mul_pow2 by lia.
  assert (Hand : Z.land (hi * 2 ^ 8) lo = 0).
  { apply Z.bits_inj'. intros n Hn. rewrite Z.land_spec, Z.bits_0.
    destruct (Z.lt_ge_cases n 8) as [Hlt|Hge].
    - by rewrite Z.mul_pow2_bits_low.
    - rewrite <- (Z.mod_small lo (2 ^ 8)) by lia.
      rewrite (Z.mod_pow2_bits_high lo 8 n) by lia. apply andb_false_r. }
  rewrite <- (Z.lxor_lor _ _ Hand), <- (Z.add_nocarry_lxor _ _ Hand). lia.
Qed.

Lemma int_of_byte_range b : 0 ≤ Py.int_of_byte b < 256.
Proof.
  unfold Py.int_of_byte. pose proof (Byte.to_N_bounded b). lia.
Qed.

(** X9.  Where memory holds bytes and PC, PC+1 are inside it, the fetched
    opcode is the 16-bit number whose high byte is memory[PC] and whose low
    byte is memory[PC+1]: it lies in 0..0xFFFF, [opcode >> 8] gives the first
    byte back and [opcode & 0xFF] the second. *)
Theorem X9_fetch_is_big_endian (s : Chip8.t) :
  byte_cells (Chip8.memory s) →
  0 ≤ Chip8.pc s →
  Chip8.pc s + 1 < Z.of_nat (length (Chip8.memory s)) →
  ∃ opcode hi lo,
    Chip8.memory s !! Z.to_nat (Chip8.pc s) = Some hi ∧
    Chip8.memory s !! Z.to_nat (Chip8.pc s + 1) = Some lo ∧
    Chip8.fetch s = Chip8.Returned opcode s [] ∧
    0 ≤ opcode ≤ 0xFFFF ∧
    Z.shiftr opcode 8 = hi ∧
    Z.land opcode 0xFF = lo.
Proof.
  intros Hbytes Hpc Hin.
  destruct (getitem_inside (Chip8.memory s) (Chip8.pc s)) as (hi & Hhi & Ghi); [lia|].
  destruct (getitem_inside (Chip8.memory s) (Chip8.pc s + 1)) as (lo & Hlo & Glo); [lia|].
  pose proof (proj1 (Forall_lookup _ _) Hbytes _ _ Hhi) as Rhi.
  pose proof (proj1 (Forall_lookup _ _) Hbytes _ _ Hlo) as Rlo.
  cbn beta in Rhi, Rlo.
  exists (hi * 256 + lo), hi, lo. split; [done|]. split; [done|]. split.
  { by rewrite fetch_eq, Ghi, Glo, lor_bytes. }
  split; [lia|]. split.
  - rewrite Z.shiftr_div_pow2 by lia. change (2 ^ 8) with 256.
    Z.div_mod_to_equations. lia.
  - change 0xFF with (Z.ones 8). rewrite Z.land_ones by lia.
    change (2 ^ 8) with 256. Z.div_mod_to_equations. lia.
Qed.

(** ** Loading, then running *)

(** X10.  Load, then fetch: on a machine with its 4096 cells and PC at 0x200,
    after [load_rom] of a program of at least two bytes that fits, the next
    fetch yields the program's first two bytes as one big-endian opcode. *)
Theorem X10_load_then_fetch
    (fs : string → option (list Byte.byte)) (path : string)
    (b0 b1 : Byte.byte) (rest : list Byte.byte) (s : Chip8.t) :
  fs path = Some (b0 :: b1 :: rest) →
  length (Chip8.memory s) = 4096%nat →
  (length (b0 :: b1 :: rest) ≤ 3584)%nat →
  Chip8.pc s = 0x200 →
  ∃ s',
    Chip8.load_rom fs path s = Chip8.Returned () s' [] ∧
    Chip8.fetch s' =
      Chip8.Returned (Py.int_of_byte b0 * 256 + Py.int_of_byte b1) s' [].
Proof.
  intros Hfs Hlen Hfit Hpc. cbn [length] in Hfit.
  eexists. split.
  { rewrite (load_rom_eq _ _ _ _ Hfs).
    change 0 with (Z.of_nat 0). rewrite store_rom_fits; [done|].
    cbn [length]. lia. }
  rewrite fetch_eq. cbn [Chip8.memory Chip8.pc Chip8.set_memory].
  rewrite Hpc, Nat.add_0_r.
  set (mem := take 512 (Chip8.memory s) ++
              (Py.int_of_byte <$> b0 :: b1 :: rest) ++
              drop (512 + length (b0 :: b1 :: rest)) (Chip8.memory s)).
  assert (Hm : length mem = 4096%nat).
  { unfold mem. rewrite !length_app, length_fmap, length_take, length_drop.
    cbn [length]. lia. }
  assert (H0 : mem !! 512%nat = Some (Py.int_of_byte b0)).
  { unfold mem. rewrite lookup_app_r by (rewrite length_take; lia).
    rewrite length_take.
    by replace (512 - 512 `min` length (Chip8.memory s))%nat with 0%nat by lia. }
  assert (H1 : mem !! 513%nat = Some (Py.int_of_byte b1)).
  { unfold mem. rewrite lookup_app_r by (rewrite length_take; lia).
    rewrite length_take.
    by replace (513 - 512 `min` length (Chip8.memory s))%nat with 1%nat by lia. }
  destruct (getitem_inside mem 0x200) as (hi & Hhi & ->); [lia|].
  destruct (getitem_inside mem (0x200 + 1)) as (lo & Hlo & ->); [lia|].
  replace (Z.to_nat 0x200) with 512%nat in Hhi by lia.
  replace (Z.to_nat (0x200 + 1)) with 513%nat in Hlo by lia.
  rewrite H0 in Hhi. rewrite H1 in Hlo. injection Hhi as <-. injection Hlo as <-.
  by rewrite lor_bytes by apply int_of_byte_range.
Qed.

(** X11.  Loading does not clear what an earlier load left: after loading P
    and then a shorter (or equally long) Q, memory from 0x200 holds Q followed
    by the bytes of P beyond Q's length. *)
Theorem X11_reload_keeps_the_tail
    (fs : string → option (list Byte.byte)) (path1 path2 : string)
    (P Q : list Byte.byte) (s : Chip8.t) :
  fs path1 = Some P →
  fs path2 = Some Q →
  length (Chip8.memory s) = 4096%nat →
  (length Q ≤ length P)%nat →
  (length P ≤ 3584)%nat →
  ∃ s1 s2,
    Chip8.load_rom fs path1 s = Chip8.Returned () s1 [] ∧
    Chip8.load_rom fs path2 s1 = Chip8.Returned () s2 [] ∧
    Py.slice (Chip8.memory s2) 0x200 (0x200 + Z.of_nat (length P))
      = (Py.int_of_byte <$> Q) ++ (Py.int_of_byte <$> drop (length Q) P).
Proof.
  intros H1 H2 Hlen HQP HP.
  set (m1 := take 512 (Chip8.memory s) ++ (Py.int_of_byte <$> P)
             ++ drop (512 + length P) (Chip8.memory s)).
  assert (Hm1 : length m1 = 4096%nat).
  { unfold m1. rewrite !length_app, length_fmap, length_take, length_drop. lia. }
  exists (Chip8.set_memory s m1). eexists. split; [|split].
  - rewrite (load_rom_eq _ _ _ _ H1). change 0 with (Z.of_nat 0).
    rewrite store_rom_fits by lia. by rewrite Nat.add_0_r.
  - rewrite (load_rom_eq _ _ _ _ H2). change 0 with (Z.of_nat 0).
    by rewrite store_rom_fits by (cbn [Chip8.memory Chip8.set_memory]; lia).
  - cbn [Chip8.memory Chip8.set_memory]. rewrite Nat.add_0_r.
    change 0x200 with (Z.of_nat 512).
    rewrite slice_inside
      by (rewrite !length_app, length_fmap, length_take, length_drop; lia).
    rewrite drop_app_length' by (rewrite length_take; lia).
    rewrite take_app_ge by (rewrite length_fmap; lia).
    f_equal. rewrite length_fmap.
    unfold m1. rewrite drop_app_ge by (rewrite length_take; lia).
    rewrite length_take.
    replace (512 + length Q - 512 `min` length (Chip8.memory s))%nat
      with (length Q) by lia.
    rewrite drop_app_le by (rewrite length_fmap; lia).
    rewrite take_app_length' by (rewrite length_drop, length_fmap; lia).
    by rewrite fmap_drop.
Qed.

(** ** The window *)

Section Window.
Import GUI.

Lemma raster_cells x y :
  (x, y) ∈ raster ↔ 0 ≤ x < CHIP8_WIDTH ∧ 0 ≤ y < CHIP8_HEIGHT.
Proof.
  unfold raster. rewrite list_elem_of_bind. split.
  - intros (y' & Hin & Hy). apply list_elem_of_bind in Hin as (x' & Hin & Hx).
    apply list_elem_of_singleton in Hin as [= -> ->].
    apply elem_of_seqZ in Hx, Hy. lia.
  - intros [Hx Hy]. exists y. split; [|apply elem_of_seqZ; lia].
    apply list_elem_of_bind. exists x. split; [|apply elem_of_seqZ; lia].
    by apply list_elem_of_singleton.
Qed.

(** Where every cell to visit is inside the framebuffer, the loops run to
    their end and paint one white square per cell that holds 1. *)
Lemma draw_cells_inside gfx cells :
  (∀ x y, (x, y) ∈ cells → 0 ≤ x + y * CHIP8_WIDTH < Z.of_nat (length gfx)) →
  ∃ painted,
    draw_cells gfx cells = (painted, None) ∧
    ∀ c, c ∈ painted ↔
         ∃ x y, (x, y) ∈ cells ∧
                gfx !! Z.to_nat (x + y * CHIP8_WIDTH) = Some 1 ∧
                c = Rect (255, 255, 255) (x * 10, y * 10, 10, 10).
Proof.
  induction cells as [|[x y] rest IH]; intros Hin.
  - exists []. split; [done|]. intros c. split.
    + by intros ?%not_elem_of_nil.
    + by intros (? & ? & ?%not_elem_of_nil & _).
  - destruct IH as (later & Hlater & Hspec).
    { intros x' y' H'. apply Hin. by right. }
    destruct (getitem_inside gfx (x + y * CHIP8_WIDTH)) as (pixel & Hl & Hg).
    { apply Hin. by left. }
    cbn [draw_cells]. rewrite Hg, Hlater.
    eexists. split; [done|]. intros c. rewrite elem_of_app, Hspec. split.
    + intros [Hc|(x' & y' & H' & Hpx & ->)].
      * destruct (Z.eqb_spec pixel 1) as [->|]; [|by apply not_elem_of_nil in Hc].
        apply list_elem_of_singleton in Hc as ->.
        exists x, y. split; [by left|done].
      * exists x', y'. split; [by right|done].
    + intros (x' & y' & [[= -> ->]|H']%elem_of_cons & Hpx & ->).
      * left. rewrite Hl in Hpx. injection Hpx as ->. cbn.
        by apply list_elem_of_singleton.
      * right. by exists x', y'.
Qed.
End Window.

Lemma raster_NoDup : NoDup GUI.raster.
Proof.
  unfold GUI.raster. apply NoDup_bind; [| |apply NoDup_seqZ].
  - intros y1 y2 c _ _ (x1 & H1 & _)%list_elem_of_bind (x2 & H2 & _)%list_elem_of_bind.
    apply list_elem_of_singleton in H1, H2. congruence.
  - intros y _. apply NoDup_bind; [| |apply NoDup_seqZ].
    + intros x1 x2 c _ _ H1%list_elem_of_singleton H2%list_elem_of_singleton.
      congruence.
    + intros x _. apply NoDup_singleton.
Qed.

(** The same loops, with the list they paint written out: the white square
    of every visited cell that holds 1, in the order of the visit. *)
Lemma draw_cells_exact gfx cells :
  (∀ x y, (x, y) ∈ cells → 0 ≤ x + y * CHIP8_WIDTH < Z.of_nat (length gfx)) →
  GUI.draw_cells gfx cells =
  ((λ c, GUI.Rect (255, 255, 255) (c.1 * 10, c.2 * 10, 10, 10))
     <$> filter (λ c, gfx !! Z.to_nat (c.1 + c.2 * CHIP8_WIDTH) = Some 1) cells,
   None).
Proof.
  induction cells as [|[x y] rest IH]; intros Hin; [done|].
  destruct (getitem_inside gfx (x + y * CHIP8_WIDTH)) as (pixel & Hl & Hg).
  { apply Hin. by left. }
  cbn [GUI.draw_cells]. rewrite Hg, IH by (intros x' y' H'; apply Hin; by right).
  destruct (Z.eqb_spec pixel 1) as [->|Hne].
  - by rewrite filter_cons_True by done.
  - rewrite filter_cons_False; [done|]. cbn [fst snd]. rewrite Hl. congruence.
Qed.

(** X12.  [GUI.draw] on a machine whose draw flag is up and whose
    framebuffer has its 2048 cells: it fills the window black, paints exactly
    one white 10x10 square at (10x, 10y) for every column x and row y whose
    pixel gfx[x + 64y] is 1 and nothing else, flips the display, and lowers
    the draw flag, changing nothing else on the machine.  The squares painted
    are, in the order of the two loops (rows outside, columns inside), those
    of the cells that hold 1; no square is painted twice. *)
Theorem X12_draw_paints_the_lit_pixels (s : Chip8.t) :
  Chip8.draw_flag s = true →
  length (Chip8.gfx s) = 2048%nat →
  ∃ painted,
    GUI.draw s =
      (GUI.Fill (0, 0, 0) :: painted ++ [GUI.Flip],
       GUI.Done (Chip8.set_draw_flag s false)) ∧
    painted =
      ((λ c, GUI.Rect (255, 255, 255) (c.1 * 10, c.2 * 10, 10, 10))
         <$> filter (λ c, Chip8.gfx s !! Z.to_nat (c.1 + c.2 * 64) = Some 1)
                    GUI.raster) ∧
    NoDup painted ∧
    (∀ x y, 0 ≤ x < 64 → 0 ≤ y < 32 →
       (GUI.Rect (255, 255, 255) (x * 10, y * 10, 10, 10) ∈ painted
        ↔ Chip8.gfx s !! Z.to_nat (x + y * 64) = Some 1)) ∧
    (∀ c, c ∈ painted →
       ∃ x y, 0 ≤ x < 64 ∧ 0 ≤ y < 32 ∧
              c = GUI.Rect (255, 255, 255) (x * 10, y * 10, 10, 10)).
Proof.
  intros Hflag Hlen.
  assert (Hrange : ∀ x y, (x, y) ∈ GUI.raster →
                          0 ≤ x + y * CHIP8_WIDTH < Z.of_nat (length (Chip8.gfx s))).
  { intros x y [Hx Hy]%raster_cells. unfold CHIP8_WIDTH, CHIP8_HEIGHT in *. lia. }
  pose proof (draw_cells_exact (Chip8.gfx s) GUI.raster Hrange) as Hexact.
  destruct (draw_cells_inside (Chip8.gfx s) GUI.raster Hrange)
    as (painted & Hd & Hspec).
  rewrite Hexact in Hd. injection Hd as Hd.
  exists painted. split; [|split; [|split; [|split]]].
  - unfold GUI.draw. by rewrite Hflag, Hexact, Hd.
  - done.
  - rewrite <- Hd. apply NoDup_fmap_2_strong.
    + intros [x y] [x' y'] _ _ [= Hx Hy]. f_equal; lia.
    + apply NoDup_filter, raster_NoDup.
  - intros x y Hx Hy. rewrite Hspec. split.
    + intros (x' & y' & _ & Hpx & [= Hxx Hyy]).
      by replace x with x' by lia; replace y with y' by lia.
    + intros Hpx. exists x, y. split; [by apply raster_cells|done].
  - intros c (x & y & [Hx Hy]%raster_cells & _ & ->)%Hspec.
    by exists x, y.
Qed.

Lemma draw_runs_through s :
  length (Chip8.gfx s) = 2048%nat →
  ∃ painted,
    GUI.draw_cells (Chip8.gfx s) GUI.raster = (painted, None) ∧
    ∀ c, c ∈ painted →
         ∃ x y, Chip8.gfx s !! Z.to_nat (x + y * CHIP8_WIDTH) = Some 1.
Proof.
  intros Hlen.
  destruct (draw_cells_inside (Chip8.gfx s) GUI.raster) as (painted & Hd & Hspec).
  { intros x y [Hx Hy]%raster_cells. unfold CHIP8_WIDTH, CHIP8_HEIGHT in *. lia. }
  exists painted. split; [done|].
  intros c (x & y & _ & Hpx & _)%Hspec. by exists x, y.
Qed.

Lemma dark_paints_nothing s :
  dark s →
  (GUI.draw s).1 = [] ∨ (GUI.draw s).1 = [GUI.Fill (0, 0, 0); GUI.Flip].
Proof.
  intros Hdark. unfold GUI.draw.
  destruct (Chip8.draw_flag s); [|by left]. right.
  destruct (draw_runs_through s) as (painted & -> & Hlit).
  { rewrite Hdark. by vm_compute. }
  replace painted with (@nil GUI.command); [done|].
  symmetry. apply elem_of_nil_inv. intros c Hc.
  destruct (Hlit c Hc) as (x & y & Hpx).
  rewrite Hdark in Hpx. unfold Py.repeat_list in Hpx.
  by apply lookup_replicate in Hpx as [? _].
Qed.

(** X13.  A machine whose framebuffer is all zeros makes [GUI.draw] paint no
    square: it makes no call on the window at all, or just fills it black and
    flips.  As no cycle lights a pixel: on a fresh machine, whatever ROM is loaded
    and however many cycles are driven with whatever keypad input, the window
    never shows a pixel. *)
Theorem X13_the_window_stays_black :
  (∀ s, dark s →
        (GUI.draw s).1 = [] ∨ (GUI.draw s).1 = [GUI.Fill (0, 0, 0); GUI.Flip]) ∧
  (∀ fs path snapshots,
     (GUI.draw (state_of (Chip8.drive snapshots
                            (state_of (Chip8.load_rom fs path Chip8.init))))).1
       = [] ∨
     (GUI.draw (state_of (Chip8.drive snapshots
                            (state_of (Chip8.load_rom fs path Chip8.init))))).1
       = [GUI.Fill (0, 0, 0); GUI.Flip]).
Proof.
  split; [apply dark_paints_nothing|].
  intros fs path snapshots. apply dark_paints_nothing, dark_fresh_run.
Qed.

(** X14.  [GUI.draw] consumes the draw flag: on a machine with its 2048
    framebuffer cells, a draw right after a draw makes no call on the window
    and changes nothing. *)
Theorem X14_draw_twice_is_draw_once (s : Chip8.t) :
  length (Chip8.gfx s) = 2048%nat →
  GUI.draw (GUI.machine (GUI.draw s).2)
  = ([], GUI.Done (GUI.machine (GUI.draw s).2)).
Proof.
  intros Hlen.
  assert (Hdown : ∀ s0, Chip8.draw_flag s0 = false →
                        GUI.draw s0 = ([], GUI.Done s0)).
  { intros s0 H0. unfold GUI.draw. by rewrite H0. }
  apply Hdown. unfold GUI.draw.
  destruct (Chip8.draw_flag s) eqn:Hflag; [|done].
  by destruct (draw_runs_through s Hlen) as (painted & -> & _).
Qed.

(** ** Keyboard events *)

Section Events.
Import GUI.

Lemma key_1_only_refl s : key_1_only s s.
Proof. unfold key_1_only. split; [by destruct s|]. by auto. Qed.

Lemma key_1_only_press s s' b :
  (2 ≤ length (Chip8.keys s))%nat → (b = 0 ∨ b = 1) →
  key_1_only (Chip8.with_keys s (<[1%nat := b]> (Chip8.keys s))) s' →
  key_1_only s s'.
Proof.
  intros Hlen Hb (Hrest & Hl & Hother & Hone).
  cbn [Chip8.keys Chip8.with_keys] in *.
  rewrite length_insert in Hl. split; [|split; [done|split]].
  - destruct s, s'. unfold Chip8.with_keys in *. cbn in *.
    injection Hrest. intros. congruence.
  - intros k Hk. rewrite (Hother k Hk). by apply list_lookup_insert_ne.
  - rewrite list_lookup_insert_eq in Hone by lia.
    destruct Hone as [->|[->| ->]]; destruct Hb as [-> | ->]; auto.
Qed.

Lemma handle_events_result events : ∀ s,
  (2 ≤ length (Chip8.keys s))%nat →
  ∃ s', key_1_only s s' ∧
        ((QUIT ∈ events ∧ handle_events events s = Exited s') ∨
         ((QUIT ∉ events) ∧ handle_events events s = Done s')).
Proof.
  induction events as [|ev rest IH]; intros s Hlen.
  - exists s. split; [apply key_1_only_refl|]. right.
    split; [apply not_elem_of_nil|done].
  - assert (Hskip : ev ≠ QUIT → handle_events (ev :: rest) s = handle_events rest s →
            ∃ s', key_1_only s s' ∧
                  ((QUIT ∈ ev :: rest ∧ handle_events (ev :: rest) s = Exited s') ∨
                   ((QUIT ∉ ev :: rest) ∧ handle_events (ev :: rest) s = Done s'))).
    { intros Hev ->. destruct (IH s Hlen) as (s' & Hk & [[Hq He]|[Hq He]]).
      - exists s'. split; [done|]. left. split; [by right|done].
      - exists s'. split; [done|]. right. split; [|done].
        by intros [?|?]%elem_of_cons. }
    assert (Hpress : ∀ b, (b = 0 ∨ b = 1) → ev ≠ QUIT →
              handle_events (ev :: rest) s
              = handle_events rest (Chip8.with_keys s (<[1%nat := b]> (Chip8.keys s))) →
              ∃ s', key_1_only s s' ∧
                    ((QUIT ∈ ev :: rest ∧ handle_events (ev :: rest) s = Exited s') ∨
                     ((QUIT ∉ ev :: rest) ∧ handle_events (ev :: rest) s = Done s'))).
    { intros b Hb Hev ->.
      destruct (IH (Chip8.with_keys s (<[1%nat := b]> (Chip8.keys s))))
        as (s' & Hk & Hcases).
      { cbn. by rewrite length_insert. }
      exists s'. split; [by eapply key_1_only_press|].
      destruct Hcases as [[Hq He]|[Hq He]].
      - left. split; [by right|done].
      - right. split; [|done]. by intros [?|?]%elem_of_cons. }
    destruct ev as [|key|key|].
    + exists s. split; [apply key_1_only_refl|]. left. split; [by left|done].
    + destruct (key =? K_1) eqn:Hkey.
      * apply (Hpress 1); [by right|done|]. cbn [handle_events]. rewrite Hkey.
        by rewrite setitem_inside by lia.
      * apply Hskip; [done|]. cbn [handle_events]. by rewrite Hkey.
    + destruct (key =? K_1) eqn:Hkey.
      * apply (Hpress 0); [by left|done|]. cbn [handle_events]. rewrite Hkey.
        by rewrite setitem_inside by lia.
      * apply Hskip; [done|]. cbn [handle_events]. by rewrite Hkey.
    + by apply Hskip.
Qed.
End Events.

(** X15.  [GUI.handle_events] on a machine whose keypad list has at least two
    entries never raises: it ends in [quit()] exactly when the batch holds a
    QUIT event and returns otherwise; and all it can have changed on the
    machine is keypad entry 1, which is then 0 or 1 (only the key "1" is
    mapped).  On a keypad list shorter than that, the first press or release
    of "1" raises [IndexError]. *)
Theorem X15_events_touch_key_1_only :
  (∀ events s,
     (2 ≤ length (Chip8.keys s))%nat →
     ∃ s', key_1_only s s' ∧
           ((GUI.QUIT ∈ events ∧ GUI.handle_events events s = GUI.Exited s') ∨
            ((GUI.QUIT ∉ events) ∧ GUI.handle_events events s = GUI.Done s'))) ∧
  (∀ rest s,
     (length (Chip8.keys s) < 2)%nat →
     GUI.handle_events (GUI.KEYDOWN GUI.K_1 :: rest) s
       = GUI.Failed Py.IndexError s ∧
     GUI.handle_events (GUI.KEYUP GUI.K_1 :: rest) s
       = GUI.Failed Py.IndexError s).
Proof.
  split; [apply handle_events_result|].
  intros rest s Hlen. cbn [GUI.handle_events]. rewrite Z.eqb_refl.
  by rewrite !setitem_beyond by lia.
Qed.

Lemma handle_events_app pre post s :
  GUI.handle_events (pre ++ post) s =
  match GUI.handle_events pre s with
  | GUI.Done s1 => GUI.handle_events post s1
  | r => r
  end.
Proof.
  revert s. induction pre as [|ev pre IH]; intros s; [done|].
  destruct ev as [|key|key|]; cbn [app GUI.handle_events]; [done| | |apply IH].
  - destruct (key =? GUI.K_1); [|apply IH].
    destruct (Py.setitem (Chip8.keys s) 1 1); [done|apply IH].
  - destruct (key =? GUI.K_1); [|apply IH].
    destruct (Py.setitem (Chip8.keys s) 1 0); [done|apply IH].
Qed.

(** X16.  A batch of events is handled in order.  Where the events before a
    QUIT are handled without failure, a QUIT ends the process in the state
    they produced, and what follows it in the batch is never looked at; a
    batch without QUIT that ends with a press of "1" leaves keypad entry 1 at
    1, and one that ends with its release leaves it at 0. *)
Theorem X16_events_in_order (pre post : list GUI.event) (s s1 : Chip8.t) :
  GUI.handle_events pre s = GUI.Done s1 →
  (2 ≤ length (Chip8.keys s))%nat →
  GUI.handle_events (pre ++ GUI.QUIT :: post) s = GUI.Exited s1 ∧
  (∃ s2, GUI.handle_events (pre ++ [GUI.KEYDOWN GUI.K_1]) s = GUI.Done s2 ∧
         Chip8.keys s2 !! 1%nat = Some 1) ∧
  (∃ s2, GUI.handle_events (pre ++ [GUI.KEYUP GUI.K_1]) s = GUI.Done s2 ∧
         Chip8.keys s2 !! 1%nat = Some 0).
Proof.
  intros Hpre Hlen.
  assert (Hlen1 : (2 ≤ length (Chip8.keys s1))%nat).
  { destruct (handle_events_result pre s Hlen) as (s' & (_ & Hl & _) & Hcases).
    destruct Hcases as [[_ He]|[_ He]]; rewrite Hpre in He; [done|].
    injection He as <-. lia. }
  rewrite !handle_events_app, Hpre. split; [done|].
  cbn [GUI.handle_events]. rewrite Z.eqb_refl.
  rewrite !setitem_inside by lia. split.
  - eexists. split; [done|]. cbn. apply list_lookup_insert_eq. lia.
  - eexists. split; [done|]. cbn. apply list_lookup_insert_eq. lia.
Qed.

(** ** ROMs in an archive *)

Lemma inspect_fold (names acc : list string) :
  foldl (λ result name, if endswith name ".ch8" then result ++ [name] else result)
        acc names
  = acc ++ filter (λ name, endswith name ".ch8" = true) names.
Proof.
  revert acc. induction names as [|name names IH]; intros acc.
  - cbn. by rewrite app_nil_r.
  - cbn [foldl]. rewrite IH. destruct (endswith name ".ch8") eqn:Hend.
    + rewrite filter_cons_True by done. by rewrite <- app_assoc.
    + rewrite filter_cons_False; [done|]. by rewrite Hend.
Qed.

Lemma substring_0_length (s : string) :
  String.substring 0 (String.length s) s = s.
Proof. induction s as [|c s IH]; [done|]. cbn. by rewrite IH. Qed.

Lemma substring_append_suffix pre suffix :
  String.substring (String.length pre) (String.length suffix) (pre +:+ suffix)
  = suffix.
Proof.
  induction pre as [|c pre IH]; [exact (substring_0_length suffix)|exact IH].
Qed.

Lemma length_append (a b : string) :
  String.length (a +:+ b) = (String.length a + String.length b)%nat.
Proof.
  induction a as [|c a IH]; [done|].
  change (S (String.length (a +:+ b)) = S (String.length a + String.length b)).
  by rewrite IH.
Qed.

Lemma substring_split (n : nat) : ∀ s : string,
  (n ≤ String.length s)%nat →
  s = (String.substring 0 n s +:+
       String.substring n (String.length s - n) s)%string.
Proof.
  induction n as [|n IH]; intros s Hn.
  - rewrite Nat.sub_0_r, substring_0_length. by destruct s.
  - destruct s as [|c s]; cbn [String.length] in Hn; [lia|].
    change (String c s =
            String c (String.substring 0 n s +:+
                      String.substring n (String.length s - n) s)%string).
    f_equal. apply IH. lia.
Qed.

Lemma endswith_iff s suffix :
  endswith s suffix = true ↔ ∃ stem, s = (stem +:+ suffix)%string.
Proof.
  unfold endswith. split.
  - intros [Hle Heq]%andb_true_iff.
    apply Nat.leb_le in Hle. apply String.eqb_eq in Heq.
    exists (String.substring 0 (String.length s - String.length suffix) s).
    pose proof (substring_split (String.length s - String.length suffix) s) as Hs.
    replace (String.length s - (String.length s - String.length suffix))%nat
      with (String.length suffix) in Hs by lia.
    rewrite Heq in Hs. apply Hs. lia.
  - intros [stem ->]. rewrite length_append.
    apply andb_true_iff. split; [apply Nat.leb_le; lia|].
    apply String.eqb_eq.
    replace (String.length stem + String.length suffix - String.length suffix)%nat
      with (String.length stem) by lia.
    apply substring_append_suffix.
Qed.

(** X17.  [inspect_zip_for_modules] returns the archive's member names that
    end in ".ch8", each as often as it occurs and in archive order: the
    result is the archive's list with the other names dropped, and a name is
    in it exactly when it is in the archive and is some stem followed by
    ".ch8" (the match is case-sensitive, and the bare name ".ch8" counts). *)
Theorem X17_inspect_zip_keeps_ch8_names (namelist : list string) :
  inspect_zip_for_modules namelist
    = filter (λ name, endswith name ".ch8" = true) namelist ∧
  (∀ name, name ∈ inspect_zip_for_modules namelist ↔
           name ∈ namelist ∧ ∃ stem, name = (stem +:+ ".ch8")%string).
Proof.
  assert (Heq : inspect_zip_for_modules namelist
                = filter (λ name, endswith name ".ch8" = true) namelist).
  { unfold inspect_zip_for_modules. by rewrite inspect_fold. }
  split; [done|]. intros name.
  rewrite Heq, list_elem_of_filter, endswith_iff. tauto.
Qed.

(** ** Concrete runs of the further properties *)

(** One cycle on a fresh machine keeps the list lengths. *)
Lemma X1_witness : shaped (state_of (Chip8.emulate_cycle cls_state)).
Proof.
  apply (proj1 (proj2 X1_shape_is_kept) cls_state). by vm_compute.
Defined.

(** RET with one address on the stack lowers SP from 1 to 0. *)
Lemma X3_witness :
  Chip8.sp (state_of (Chip8.emulate_cycle ret_one_state))
  = Chip8.sp ret_one_state - 1.
Proof.
  apply (proj1 (proj1 X3_sp_only_descends ret_one_state)).
  vm_compute. reflexivity.
Defined.

(** Three cycles from a machine that starts with CLS. *)
Lemma X4_witness :
  dark (state_of (Chip8.drive (replicate 3 no_key_pressed) cls_state)).
Proof.
  apply (proj1 (proj2 X4_no_pixel_is_ever_lit)
               (replicate 3 no_key_pressed) cls_state).
  vm_compute. reflexivity.
Defined.

(** RET at SP = -16 raises, with PC at 0x202 and SP at -17. *)
Lemma X7_witness :
  Chip8.emulate_cycle ret_deep_state =
    Chip8.Raised Py.IndexError
      (Chip8.set_sp (advanced ret_deep_state) (Chip8.sp ret_deep_state - 1)) [].
Proof.
  destruct (X7_ret_out_of_range ret_deep_state) as (_ & Hout & _);
    [vm_compute; reflexivity | vm_compute; reflexivity |].
  apply Hout. left. vm_compute. reflexivity.
Defined.

(** Seven cycles from sound timer 1: one beep. *)
Lemma X8_witness :
  beeps (output_of (Chip8.drive (replicate 7 no_key_pressed) timer_state))
  = if (1 <=? Chip8.sound_timer timer_state)
       && (Chip8.sound_timer timer_state
             <=? Z.of_nat (length (replicate 7 no_key_pressed)))
    then 1%nat else 0%nat.
Proof.
  apply (proj2 X8_beep_on_the_last_tick (replicate 7 no_key_pressed) timer_state
               (state_of (Chip8.drive (replicate 7 no_key_pressed) timer_state))).
  vm_compute. reflexivity.
Defined.

(** The fetch of 00E0 on a fresh machine. *)
Lemma X9_witness :
  ∃ opcode hi lo,
    Chip8.memory cls_state !! Z.to_nat (Chip8.pc cls_state) = Some hi ∧
    Chip8.memory cls_state !! Z.to_nat (Chip8.pc cls_state + 1) = Some lo ∧
    Chip8.fetch cls_state = Chip8.Returned opcode cls_state [] ∧
    0 ≤ opcode ≤ 0xFFFF ∧
    Z.shiftr opcode 8 = hi ∧
    Z.land opcode 0xFF = lo.
Proof.
  apply (X9_fetch_is_big_endian cls_state).
  - apply (bool_decide_unpack _). vm_compute. exact I.
  - vm_compute. discriminate.
  - vm_compute. reflexivity.
Defined.

(** Loading the six-byte program, then fetching 00E0. *)
Lemma X10_witness :
  ∃ s',
    Chip8.load_rom two_files "long.ch8" Chip8.init = Chip8.Returned () s' [] ∧
    Chip8.fetch s' =
      Chip8.Returned (Py.int_of_byte Byte.x00 * 256 + Py.int_of_byte Byte.xe0) s' [].
Proof.
  apply (X10_load_then_fetch two_files "long.ch8" Byte.x00 Byte.xe0
           [Byte.x00; Byte.xee; Byte.xab; Byte.xcd] Chip8.init);
    vm_compute; (reflexivity || discriminate || lia).
Defined.

(** The six-byte program, then the three-byte one over it. *)
Lemma X11_witness :
  ∃ s1 s2,
    Chip8.load_rom two_files "long.ch8" Chip8.init = Chip8.Returned () s1 [] ∧
    Chip8.load_rom two_files "short.ch8" s1 = Chip8.Returned () s2 [] ∧
    Py.slice (Chip8.memory s2) 0x200 (0x200 + Z.of_nat (length long_rom))
      = (Py.int_of_byte <$> short_rom)
          ++ (Py.int_of_byte <$> drop (length short_rom) long_rom).
Proof.
  apply (X11_reload_keeps_the_tail two_files "long.ch8" "short.ch8"
           long_rom short_rom Chip8.init);
    vm_compute; (reflexivity || lia).
Defined.

(** A machine with four lit pixels. *)
Lemma X12_witness :
  ∃ painted,
    GUI.draw lit_state =
      (GUI.Fill (0, 0, 0) :: painted ++ [GUI.Flip],
       GUI.Done (Chip8.set_draw_flag lit_state false)) ∧
    painted =
      ((λ c, GUI.Rect (255, 255, 255) (c.1 * 10, c.2 * 10, 10, 10))
         <$> filter (λ c, Chip8.gfx lit_state !! Z.to_nat (c.1 + c.2 * 64) = Some 1)
                    GUI.raster) ∧
    NoDup painted ∧
    (∀ x y, 0 ≤ x < 64 → 0 ≤ y < 32 →
       (GUI.Rect (255, 255, 255) (x * 10, y * 10, 10, 10) ∈ painted
        ↔ Chip8.gfx lit_state !! Z.to_nat (x + y * 64) = Some 1)) ∧
    (∀ c, c ∈ painted →
       ∃ x y, 0 ≤ x < 64 ∧ 0 ≤ y < 32 ∧
              c = GUI.Rect (255, 255, 255) (x * 10, y * 10, 10, 10)).
Proof.
  apply (X12_draw_paints_the_lit_pixels lit_state); vm_compute; reflexivity.
Defined.

(** A fresh machine. *)
Lemma X13_witness :
  (GUI.draw Chip8.init).1 = [] ∨
  (GUI.draw Chip8.init).1 = [GUI.Fill (0, 0, 0); GUI.Flip].
Proof.
  apply (proj1 X13_the_window_stays_black Chip8.init). vm_compute. reflexivity.
Defined.

(** Drawing the four lit pixels twice. *)
Lemma X14_witness :
  GUI.draw (GUI.machine (GUI.draw lit_state).2)
  = ([], GUI.Done (GUI.machine (GUI.draw lit_state).2)).
Proof.
  apply (X14_draw_twice_is_draw_once lit_state). vm_compute. reflexivity.
Defined.

(** The batch of key events on a fresh machine. *)
Lemma X15_witness :
  ∃ s', key_1_only Chip8.init s' ∧
        ((GUI.QUIT ∈ key_batch ∧
          GUI.handle_events key_batch Chip8.init = GUI.Exited s') ∨
         ((GUI.QUIT ∉ key_batch) ∧
          GUI.handle_events key_batch Chip8.init = GUI.Done s')).
Proof.
  apply (proj1 X15_events_touch_key_1_only key_batch Chip8.init).
  vm_compute. lia.
Defined.

(** The same batch, followed by QUIT or by one more event for "1". *)
Lemma X16_witness :
  GUI.handle_events (key_batch ++ GUI.QUIT :: [GUI.KEYDOWN GUI.K_1]) Chip8.init
    = GUI.Exited (GUI.machine (GUI.handle_events key_batch Chip8.init)) ∧
  (∃ s2, GUI.handle_events (key_batch ++ [GUI.KEYDOWN GUI.K_1]) Chip8.init
           = GUI.Done s2 ∧
         Chip8.keys s2 !! 1%nat = Some 1) ∧
  (∃ s2, GUI.handle_events (key_batch ++ [GUI.KEYUP GUI.K_1]) Chip8.init
           = GUI.Done s2 ∧
         Chip8.keys s2 !! 1%nat = Some 0).
Proof.
  apply (X16_events_in_order key_batch [GUI.KEYDOWN GUI.K_1] Chip8.init).
  - vm_compute. reflexivity.
  - vm_compute. lia.
Defined.

(** ** The keypad and the loop *)

Lemma with_keys_back s ks : Chip8.with_keys (Chip8.with_keys s ks) (Chip8.keys s) = s.
Proof. by destruct s. Qed.

(** X18.  The keypad is never read: running a cycle with any other keypad
    snapshot in place gives the same outcome (the same return or exception,
    the same printed lines, the same resulting attributes) except that the
    resulting machine carries that snapshot.  No key press can influence what
    the machine does. *)
Theorem X18_keypad_is_never_read (s : Chip8.t) (ks : list Z) :
  Chip8.emulate_cycle (Chip8.with_keys s ks)
  = outcome_with_keys (Chip8.emulate_cycle s) ks.
Proof.
  cycle_cases s; rewrite Hcycle; cbn [outcome_with_keys].
  - rename Hnofetch into Hnone. clear Hcycle.
    cycle_cases (Chip8.with_keys s ks); try done;
      destruct Hnone; eexists;
      apply (fetch_with_keys _ (Chip8.keys s)) in Hfetch;
      rewrite with_keys_back in Hfetch; exact Hfetch.
  - by rewrite (emulate_cycle_CLS _ (fetch_with_keys _ ks _ Hfetch)).
  - rewrite (emulate_cycle_RET _ (fetch_with_keys _ ks _ Hfetch)).
    cbn [Chip8.stack Chip8.sp Chip8.with_keys]. by rewrite Hread.
  - rewrite (emulate_cycle_RET _ (fetch_with_keys _ ks _ Hfetch)).
    cbn [Chip8.stack Chip8.sp Chip8.with_keys]. by rewrite Hread.
  - by rewrite (emulate_cycle_Unknown _ _ (fetch_with_keys _ ks _ Hfetch) Hdecode).
Qed.

Lemma cycle_gfx_length s :
  length (Chip8.gfx s) = 2048%nat →
  length (Chip8.gfx (state_of (Chip8.emulate_cycle s))) = 2048%nat.
Proof.
  intros Hlen. destruct (cycle_gfx s) as [->| ->]; [done|by vm_compute].
Qed.

(** X19.  One turn of the loop of [GUI.run] whose cycle returns, on a machine
    with its 2048 framebuffer cells and at least two keypad entries: neither
    [draw] nor [handle_events] raises, the turn ends in [quit()] exactly when
    the events hold a QUIT, and afterwards the draw flag is down, each timer
    was counted down once, and memory is what it was. *)
Theorem X19_a_turn_of_the_loop
    (events : list GUI.event) (s s1 : Chip8.t) (out : list string) :
  Chip8.emulate_cycle s = Chip8.Returned () s1 out →
  length (Chip8.gfx s) = 2048%nat →
  (2 ≤ length (Chip8.keys s))%nat →
  ∃ window s',
    ((GUI.QUIT ∈ events ∧
      GUI.frame events s = (out, window, GUI.Exited s')) ∨
     ((GUI.QUIT ∉ events) ∧
      GUI.frame events s = (out, window, GUI.Done s'))) ∧
    Chip8.draw_flag s' = false ∧
    Chip8.delay_timer s' = countdown (Chip8.delay_timer s) ∧
    Chip8.sound_timer s' = countdown (Chip8.sound_timer s) ∧
    Chip8.memory s' = Chip8.memory s.
Proof.
  intros Hc Hgfx Hkeys.
  pose proof (cycle_gfx_length s Hgfx) as Hgfx1.
  destruct (emulate_cycle_timers _ _ _ Hc) as [Hdt Hst].
  assert (Hmem : Chip8.memory s1 = Chip8.memory s ∧ Chip8.keys s1 = Chip8.keys s).
  { cycle_cases s; rewrite Hcycle in Hc; try done; by injection Hc as <- _. }
  destruct Hmem as [Hmem Hks].
  rewrite Hc in Hgfx1. cbn [state_of] in Hgfx1.
  assert (Hdraw : ∃ window s2,
            GUI.draw s1 = (window, GUI.Done s2) ∧
            Chip8.draw_flag s2 = false ∧
            Chip8.set_draw_flag s2 (Chip8.draw_flag s1) = s1).
  { unfold GUI.draw. destruct (Chip8.draw_flag s1) eqn:Hflag.
    - destruct (draw_runs_through s1 Hgfx1) as (painted & -> & _).
      eexists _, _. split; [done|]. split; [done|].
      clear -Hflag. destruct s1. unfold Chip8.set_draw_flag.
      cbn in Hflag |- *. by subst.
    - eexists _, _. split; [done|]. split; [done|].
      clear -Hflag. destruct s1. unfold Chip8.set_draw_flag.
      cbn in Hflag |- *. by subst. }
  destruct Hdraw as (window & s2 & Hd & Hflag2 & Hs2).
  assert (Hfields : Chip8.delay_timer s2 = Chip8.delay_timer s1 ∧
                    Chip8.sound_timer s2 = Chip8.sound_timer s1 ∧
                    Chip8.memory s2 = Chip8.memory s1 ∧
                    Chip8.keys s2 = Chip8.keys s1).
  { rewrite <- Hs2. by destruct s2. }
  destruct Hfields as (Hdt2 & Hst2 & Hmem2 & Hks2).
  destruct (handle_events_result events s2) as (s' & (Hrest & _) & Hcases).
  { rewrite Hks2, Hks. done. }
  assert (Hfields' : Chip8.draw_flag s' = Chip8.draw_flag s2 ∧
                     Chip8.delay_timer s' = Chip8.delay_timer s2 ∧
                     Chip8.sound_timer s' = Chip8.sound_timer s2 ∧
                     Chip8.memory s' = Chip8.memory s2).
  { rewrite <- Hrest. by destruct s'. }
  destruct Hfields' as (Hf' & Hdt' & Hst' & Hmem').
  exists window, s'. split.
  - unfold GUI.frame. rewrite Hc, Hd.
    destruct Hcases as [[Hq ->]|[Hq ->]]; [by left|by right].
  - rewrite Hf', Hdt', Hst', Hmem', Hdt2, Hst2, Hmem2. done.
Qed.

(** A turn of the loop on the machine with four lit pixels. *)
Lemma X19_witness :
  ∃ window s',
    ((GUI.QUIT ∈ key_batch ∧
      GUI.frame key_batch lit_state
        = (output_of (Chip8.emulate_cycle lit_state), window, GUI.Exited s')) ∨
     ((GUI.QUIT ∉ key_batch) ∧
      GUI.frame key_batch lit_state
        = (output_of (Chip8.emulate_cycle lit_state), window, GUI.Done s'))) ∧
    Chip8.draw_flag s' = false ∧
    Chip8.delay_timer s' = countdown (Chip8.delay_timer lit_state) ∧
    Chip8.sound_timer s' = countdown (Chip8.sound_timer lit_state) ∧
    Chip8.memory s' = Chip8.memory lit_state.
Proof.
  apply (X19_a_turn_of_the_loop key_batch lit_state
           (state_of (Chip8.emulate_cycle lit_state))).
  - vm_compute. reflexivity.
  - vm_compute. reflexivity.
  - vm_compute. lia.
Defined.

(** ** Timers (C7) *)

Lemma cycle_Raised_timers s e s' out :
  Chip8.emulate_cycle s = Chip8.Raised e s' out →
  Chip8.delay_timer s' = Chip8.delay_timer s ∧
  Chip8.sound_timer s' = Chip8.sound_timer s.
Proof.
  cycle_cases s; rewrite Hcycle; try done; by intros [= _ <- _].
Qed.

(** Whatever way a cycle ends, a timer is where it was or one count lower,
    and not below zero if it was not. *)
Lemma cycle_timer_bounds s :
  (0 ≤ Chip8.delay_timer s →
   Z.max 0 (Chip8.delay_timer s - 1)
     ≤ Chip8.delay_timer (state_of (Chip8.emulate_cycle s))
     ≤ Chip8.delay_timer s) ∧
  (0 ≤ Chip8.sound_timer s →
   Z.max 0 (Chip8.sound_timer s - 1)
     ≤ Chip8.sound_timer (state_of (Chip8.emulate_cycle s))
     ≤ Chip8.sound_timer s).
Proof.
  destruct (Chip8.emulate_cycle s) as [[] s' out|e s' out] eqn:Hc.
  - destruct (emulate_cycle_timers _ _ _ Hc) as [Hd Hs]. cbn [state_of].
    rewrite Hd, Hs. unfold countdown.
    destruct (Z.ltb_spec 0 (Chip8.delay_timer s));
      destruct (Z.ltb_spec 0 (Chip8.sound_timer s)); lia.
  - destruct (cycle_Raised_timers _ _ _ _ Hc) as [Hd Hs]. cbn [state_of].
    rewrite Hd, Hs. lia.
Qed.

(** C7, as the source has it.  Every call of the cycle that returns has,
    after the selected branch ran, lowered the delay timer by exactly 1 if it
    was > 0 and left it alone otherwise, and the same for the sound timer; a
    call that raises ([IndexError] at the fetch or in RET) never reaches the
    timer update and leaves both timers as they were.  On every call,
    returning or raising, a timer that was not negative does not become
    negative and does not grow, so one at 0 stays at 0.  Over a driven run of
    n cycles that returns, a timer that starts at t >= 0 stands at
    max(0, t - n): from 5 it is 0 after 5 cycles and on every later one; over
    any driven run, raising or not, it stands between max(0, t - n) and t.  A
    cycle does return whenever its fetch succeeds and the opcode is not 00EE
    (whose stack read may raise). *)
Theorem C7_timers_count_down :
  (∀ s s' out,
     Chip8.emulate_cycle s = Chip8.Returned () s' out →
     (0 < Chip8.delay_timer s → Chip8.delay_timer s' = Chip8.delay_timer s - 1) ∧
     (Chip8.delay_timer s ≤ 0 → Chip8.delay_timer s' = Chip8.delay_timer s) ∧
     (0 < Chip8.sound_timer s → Chip8.sound_timer s' = Chip8.sound_timer s - 1) ∧
     (Chip8.sound_timer s ≤ 0 → Chip8.sound_timer s' = Chip8.sound_timer s) ∧
     (0 ≤ Chip8.delay_timer s → 0 ≤ Chip8.delay_timer s') ∧
     (0 ≤ Chip8.sound_timer s → 0 ≤ Chip8.sound_timer s')) ∧
  (∀ snapshots s s' out,
     Chip8.drive snapshots s = Chip8.Returned () s' out →
     0 ≤ Chip8.delay_timer s → 0 ≤ Chip8.sound_timer s →
     Chip8.delay_timer s' =
       Z.max 0 (Chip8.delay_timer s - Z.of_nat (length snapshots)) ∧
     Chip8.sound_timer s' =
       Z.max 0 (Chip8.sound_timer s - Z.of_nat (length snapshots))) ∧
  (∀ s opcode,
     Chip8.fetch s = Chip8.Returned opcode s [] →
     opcode ≠ 0x00EE →
     ∃ s' out, Chip8.emulate_cycle s = Chip8.Returned () s' out) ∧
  (∀ s e s' out,
     Chip8.emulate_cycle s = Chip8.Raised e s' out →
     Chip8.delay_timer s' = Chip8.delay_timer s ∧
     Chip8.sound_timer s' = Chip8.sound_timer s) ∧
  (∀ s,
     (0 ≤ Chip8.delay_timer s →
      0 ≤ Chip8.delay_timer (state_of (Chip8.emulate_cycle s))
        ≤ Chip8.delay_timer s) ∧
     (0 ≤ Chip8.sound_timer s →
      0 ≤ Chip8.sound_timer (state_of (Chip8.emulate_cycle s))
        ≤ Chip8.sound_timer s)) ∧
  (∀ snapshots s,
     0 ≤ Chip8.delay_timer s → 0 ≤ Chip8.sound_timer s →
     Z.max 0 (Chip8.delay_timer s - Z.of_nat (length snapshots))
       ≤ Chip8.delay_timer (state_of (Chip8.drive snapshots s))
       ≤ Chip8.delay_timer s ∧
     Z.max 0 (Chip8.sound_timer s - Z.of_nat (length snapshots))
       ≤ Chip8.sound_timer (state_of (Chip8.drive snapshots s))
       ≤ Chip8.sound_timer s).
Proof.
  split; [|split; [|split; [|split; [|split]]]].
  - intros s s' out [Hd Hs]%emulate_cycle_timers. rewrite Hd, Hs.
    unfold countdown.
    destruct (Z.ltb_spec 0 (Chip8.delay_timer s));
      destruct (Z.ltb_spec 0 (Chip8.sound_timer s)); lia.
  - induction snapshots as [|ks rest IH]; intros s s' out Hrun Hd Hs.
    + injection Hrun as <- _. simpl. lia.
    + apply drive_cons_inv in Hrun as (s1 & o1 & o2 & Hc & Hrest & _).
      apply emulate_cycle_timers in Hc as [Hd1 Hs1]. simpl in Hd1, Hs1.
      destruct (IH _ _ _ Hrest) as [Hd' Hs'].
      { rewrite Hd1. by apply countdown_nonneg. }
      { rewrite Hs1. by apply countdown_nonneg. }
      rewrite Hd', Hs', Hd1, Hs1. simpl length.
      by rewrite !countdown_max.
  - intros s opcode Hf Hne. destruct (Chip8.decode opcode) eqn:Hd.
    + apply decode_CLS in Hd as ->. eexists _, _. by apply emulate_cycle_CLS.
    + by apply decode_RET in Hd.
    + eexists _, _. by apply emulate_cycle_Unknown.
  - apply cycle_Raised_timers.
  - intros s. destruct (cycle_timer_bounds s) as [Hd Hs]. split; intros; lia.
  - induction snapshots as [|ks rest IH]; intros s Hd Hs.
    + cbn. lia.
    + rewrite drive_cons. cbn [length].
      destruct (cycle_timer_bounds (Chip8.with_keys s ks)) as [Hd1 Hs1].
      cbn [Chip8.delay_timer Chip8.sound_timer Chip8.with_keys] in Hd1, Hs1.
      specialize (Hd1 Hd). specialize (Hs1 Hs).
      destruct (Chip8.emulate_cycle (Chip8.with_keys s ks)) as [[] s1 o1|e s1 o1].
      * rewrite state_of_printed_before. cbn [state_of] in Hd1, Hs1.
        destruct (IH s1) as [Hd2 Hs2]; lia.
      * cbn [state_of] in *. lia.
Qed.

(** With PC on the last byte and the delay timer at 5 the call raises, and
    the timer, though > 0, is still 5. *)
Lemma C7_counterexample :
  0 < Chip8.delay_timer edge_timer_state ∧
  Chip8.emulate_cycle edge_timer_state
    = Chip8.Raised Py.IndexError edge_timer_state [] ∧
  Chip8.delay_timer (state_of (Chip8.emulate_cycle edge_timer_state))
    = Chip8.delay_timer edge_timer_state ∧
  Chip8.delay_timer (state_of (Chip8.emulate_cycle edge_timer_state))
    ≠ Chip8.delay_timer edge_timer_state - 1.
Proof.
  repeat split; try (vm_compute; reflexivity).
  vm_compute. discriminate.
Qed.

(** Seven cycles from delay timer 5 and sound timer 1. *)
Lemma C7_witness :
  Chip8.delay_timer
    (state_of (Chip8.drive (replicate 7 no_key_pressed) timer_state))
  = Z.max 0 (Chip8.delay_timer timer_state
             - Z.of_nat (length (replicate 7 no_key_pressed))) ∧
  Chip8.sound_timer
    (state_of (Chip8.drive (replicate 7 no_key_pressed) timer_state))
  = Z.max 0 (Chip8.sound_timer timer_state
             - Z.of_nat (length (replicate 7 no_key_pressed))).
Proof.
  apply (proj1 (proj2 C7_timers_count_down)
               (replicate 7 no_key_pressed) timer_state _
               (output_of (Chip8.drive (replicate 7 no_key_pressed) timer_state)));
    vm_compute; (reflexivity || discriminate).
Defined.

(** The whole list of window calls for the machine with four lit pixels. *)
Lemma draw_lit_state :
  (GUI.draw lit_state).1 =
  [GUI.Fill (0, 0, 0);
   GUI.Rect (255, 255, 255) (30, 0, 10, 10);
   GUI.Rect (255, 255, 255) (0, 10, 10, 10);
   GUI.Rect (255, 255, 255) (10, 10, 10, 10);
   GUI.Rect (255, 255, 255) (630, 310, 10, 10);
   GUI.Flip].
Proof. by vm_compute. Qed.
